(** * Image compression pipeline: dimension planning, batch loop, archive

    A shallow embedding of

    - [compressImage] (utils/base64ImageStorage.js, canvas version): the
      computation of the target size, the encode step and the statistics;
    - [processBatchImages] and [createZipFromImages]
      (utils/imageBatchProcessor.js);
    - [handleDownloadZip] (App.jsx), the only caller of
      [createZipFromImages].

    JavaScript numbers are reached through the interface [JSNumber]; the
    pixel counts themselves are integers ([Z]).  Browser facilities (image
    decoding, the canvas, [atob], the callback handed to the batch loop) are
    parameters of the sections that use them. *)

From Stdlib Require Import ZArith QArith Qround Qabs Lia Ascii SpecFloat.
From stdpp Require Import base option list strings gmap pretty.

Local Open Scope Z_scope.

(** ** JavaScript numbers *)

(** The operations of IEEE doubles that the source applies to values that
    are not plain pixel counts: [/], [*], [-], [Math.round] and
    [Number.prototype.toFixed(1)]. *)
Class JSNumber (num : Type) := {
  of_int : Z -> num;
  ndiv : num -> num -> num;
  nmul : num -> num -> num;
  nsub : num -> num -> num;
  Math_round : num -> Z;
  toFixed1 : num -> string
}.

(** [Math.round x] is [floor (x + 1/2)]: ties go towards plus infinity. *)
Definition Qround_half_up (x : Q) : Z := Qfloor (x + (1 # 2))%Q.

(** [x.toFixed(1)]: the integer [n] closest to [10 * |x|] (the larger one on
    a tie), printed with one decimal and the sign of [x]. *)
Definition QtoFixed1 (x : Q) : string :=
  let neg := match Qcompare x 0 with Lt => true | _ => false end in
  let n := Qround_half_up (Qabs x * (10 # 1))%Q in
  (if neg then "-" else "") +:+ pretty (n / 10) +:+ "." +:+ pretty (n mod 10).

(** Exact arithmetic: numbers as rationals.  It agrees with doubles as long
    as no operation rounds, overflows or divides by zero. *)
#[export] Instance exact_number : JSNumber Q := {|
  of_int := inject_Z;
  ndiv := Qdiv;
  nmul := Qmult;
  nsub := Qminus;
  Math_round := Qround_half_up;
  toFixed1 := QtoFixed1
|}.

(** Rounding half away from zero, the rounding the specification names,
    to compare [Math.round] with; the source only has [Math.round]. *)
Definition Qround_half_away (x : Q) : Z :=
  if Qle_bool 0 x then Qfloor (x + (1 # 2))%Q else - Qfloor (- x + (1 # 2))%Q.

(** Exact arithmetic with the specification's rounding in place of
    [Math.round]. *)
Definition half_away_number : JSNumber Q := {|
  of_int := inject_Z;
  ndiv := Qdiv;
  nmul := Qmult;
  nsub := Qminus;
  Math_round := Qround_half_away;
  toFixed1 := QtoFixed1
|}.

(** IEEE 754 binary64, the numbers JavaScript computes with, from the
    Standard Library's specification of floating-point arithmetic. *)
Module Binary64.
Definition prec : Z := 53.
Definition emax : Z := 1024.

Definition of_int (z : Z) : spec_float := binary_normalize prec emax z 0 false.

(** The exact value of a finite double. *)
Definition to_Q (x : spec_float) : Q :=
  match x with
  | S754_finite s m e =>
      let sm := if s then Z.neg m else Z.pos m in
      match e with
      | Z.neg k => sm # (2 ^ k)
      | _ => inject_Z (sm * 2 ^ e)
      end
  | _ => 0%Q
  end.

(** [Math.round]: NaN and the infinities have no integer value; [0]
    stands for them (a canvas reads them as 0). *)
Definition round (x : spec_float) : Z := Qround_half_up (to_Q x).

(** [toFixed(1)], for magnitudes below 10^21. *)
Definition toFixed1 (x : spec_float) : string :=
  match x with
  | S754_nan => "NaN"
  | S754_infinity false => "Infinity"
  | S754_infinity true => "-Infinity"
  | _ => QtoFixed1 (to_Q x)
  end.
End Binary64.

#[export] Instance binary64_number : JSNumber spec_float := {|
  of_int := Binary64.of_int;
  ndiv := SFdiv Binary64.prec Binary64.emax;
  nmul := SFmul Binary64.prec Binary64.emax;
  nsub := SFsub Binary64.prec Binary64.emax;
  Math_round := Binary64.round;
  toFixed1 := Binary64.toFixed1
|}.

(** ** Compression options *)

(** The options object.  A field that is [undefined] is [None]; the
    destructuring defaults of [compressImage] fill those in. *)
Record CompressionOptions {num : Type} := {
  maxWidth : option Z;
  maxHeight : option Z;
  quality : option num;
  format : option string;
  maintainAspectRatio : option bool;
  preserveDimensions : option bool
}.
Arguments CompressionOptions : clear implicits.

Section Planner.
Context {num : Type} `{!JSNumber num}.

Definition maxWidth_or_default (options : CompressionOptions num) : Z :=
  default 800 (maxWidth options).
Definition maxHeight_or_default (options : CompressionOptions num) : Z :=
  default 800 (maxHeight options).
Definition quality_or_default (options : CompressionOptions num) : num :=
  default (ndiv (of_int 8) (of_int 10)) (quality options).
Definition format_or_default (options : CompressionOptions num) : string :=
  default "image/jpeg" (format options).
Definition maintainAspectRatio_or_default (options : CompressionOptions num) : bool :=
  default true (maintainAspectRatio options).

(** "Calculate new dimensions" in [img.onload] of [compressImage]: from
    the decoded size to [(newWidth, newHeight)]. *)
Definition planDimensions (originalWidth originalHeight : Z)
    (options : CompressionOptions num) : Z * Z :=
  let maxWidth := maxWidth_or_default options in
  let maxHeight := maxHeight_or_default options in
  if (0 <? maxWidth) && (0 <? maxHeight)
     && (maxWidth <? 9999) && (maxHeight <? 9999) then
    if maintainAspectRatio_or_default options then
      let aspectRatio := ndiv (of_int originalWidth) (of_int originalHeight) in
      if (maxWidth <? originalWidth) || (maxHeight <? originalHeight) then
        if originalHeight <? originalWidth then
          let newWidth := Z.min originalWidth maxWidth in
          let newHeight := Math_round (ndiv (of_int newWidth) aspectRatio) in
          if maxHeight <? newHeight then
            (Math_round (nmul (of_int maxHeight) aspectRatio), maxHeight)
          else (newWidth, newHeight)
        else
          let newHeight := Z.min originalHeight maxHeight in
          let newWidth := Math_round (nmul (of_int newHeight) aspectRatio) in
          if maxWidth <? newWidth then
            (maxWidth, Math_round (ndiv (of_int maxWidth) aspectRatio))
          else (newWidth, newHeight)
      else (originalWidth, originalHeight)
    else (Z.min originalWidth maxWidth, Z.min originalHeight maxHeight)
  else (originalWidth, originalHeight).
End Planner.


(** *** What the planner needs from [Math.round]

    For an original size [w] by [h], [Math.round] is only met on
    [a / (w / h)] and [a * (w / h)] with [a] a positive side length below
    9999. The arithmetic rounds to nearest for this size when each of these
    comes out as an integer within one half of the exact quotient (a tie
    may go either way). *)
Section Nearest.
Context {num : Type} `{!JSNumber num}.

Definition aspectRatio_of (w h : Z) : num := ndiv (of_int w) (of_int h).

Definition nearest_at (w h a : Z) : Prop :=
  2 * Z.abs (Math_round (ndiv (of_int a) (aspectRatio_of w h)) * w - a * h) <= w
  /\ 2 * Z.abs (Math_round (nmul (of_int a) (aspectRatio_of w h)) * h - a * w) <= h.

Definition rounds_to_nearest (w h : Z) : Prop :=
  forall a, 0 < a < 9999 -> nearest_at w h a.

(** The same, decided by running through the side lengths. *)
Definition nearest_atb (w h a : Z) : bool :=
  (2 * Z.abs (Math_round (ndiv (of_int a) (aspectRatio_of w h)) * w - a * h) <=? w)
  && (2 * Z.abs (Math_round (nmul (of_int a) (aspectRatio_of w h)) * h - a * w) <=? h).

Definition rounds_to_nearestb (w h : Z) : bool :=
  forallb (fun k => nearest_atb w h (Z.of_nat k)) (seq 1 (Z.to_nat 9998)).
End Nearest.

(** ** Promises and strings *)

(** How an awaited promise (or a call inside [try]) ends: with a value, or
    with an [Error] carrying a message. *)
Inductive outcome (A : Type) : Type :=
  | Resolved (value : A)
  | Rejected (message : string).
Arguments Resolved {A} value.
Arguments Rejected {A} message.

(** [s.split(sep)] for a one-character separator. *)
Fixpoint split_on (sep : ascii) (s : string) : list string :=
  match s with
  | EmptyString => [EmptyString]
  | String c rest =>
      if Ascii.eqb c sep then EmptyString :: split_on sep rest
      else match split_on sep rest with
           | piece :: pieces => String c piece :: pieces
           | [] => [String c EmptyString]
           end
  end.

(** [s.includes(c)]. *)
Fixpoint includes (c : ascii) (s : string) : bool :=
  match s with
  | EmptyString => false
  | String d rest => Ascii.eqb d c || includes c rest
  end.

(** Truthiness of a string that may be [undefined] or [null]. *)
Definition truthy (s : option string) : bool :=
  match s with
  | Some (String _ _) => true
  | _ => false
  end.

(** [s || fallback]. *)
Definition or_else (s : option string) (fallback : string) : string :=
  match s with
  | Some (String c rest) => String c rest
  | _ => fallback
  end.

(** ** compressImage *)

Module CompressionResult.
(** The object [compressImage] resolves with. *)
Record t {num : Type} := {
  base64 : string;
  width : Z;
  height : Z;
  format : string;
  quality : num;
  originalSize : Z;
  compressedSize : Z;
  compressionRatio : string;
  originalWidth : Z;
  originalHeight : Z
}.
Arguments t : clear implicits.
End CompressionResult.

Section CompressImage.
Context {num : Type} `{!JSNumber num}.

(** The browser: a decoded image element with its size, the loading of a
    data URL into one ([None]: [onerror] fires), and the canvas: an image
    drawn at a size with high-quality smoothing and encoded by
    [canvas.toDataURL(format)] or [canvas.toDataURL(format, quality)]. *)
Variable Image : Type.
Variable img_width img_height : Image -> Z.
Variable loadImage : string -> option Image.
Variable toDataURL : Image -> Z -> Z -> string -> option num -> outcome string.

Definition getBase64Size (base64 : string) : Z :=
  let base64String :=
    if includes "," base64
    then default base64 (split_on "," base64 !! 1%nat)
    else base64 in
  Math_round (ndiv (of_int (Z.of_nat (String.length base64String) * 3)) (of_int 4)).

Definition compressImage (imageDataUrl : string) (options : CompressionOptions num)
    : outcome (CompressionResult.t num) :=
  let quality := quality_or_default options in
  let format := format_or_default options in
  match loadImage imageDataUrl with
  | None => Rejected "Failed to load image"
  | Some img =>
      let originalWidth := img_width img in
      let originalHeight := img_height img in
      let '(newWidth, newHeight) :=
        planDimensions originalWidth originalHeight options in
      let encoded :=
        if String.eqb format "image/png"
        then toDataURL img newWidth newHeight format None
        else toDataURL img newWidth newHeight format (Some quality) in
      match encoded with
      | Rejected message => Rejected ("Compression error: " +:+ message)
      | Resolved compressedDataUrl =>
          let originalSize := getBase64Size imageDataUrl in
          let compressedSize := getBase64Size compressedDataUrl in
          let compressionRatio :=
            toFixed1 (nmul (nsub (of_int 1)
                                 (ndiv (of_int compressedSize) (of_int originalSize)))
                           (of_int 100)) in
          Resolved {|
            CompressionResult.base64 := compressedDataUrl;
            CompressionResult.width := newWidth;
            CompressionResult.height := newHeight;
            CompressionResult.format := format;
            CompressionResult.quality := quality;
            CompressionResult.originalSize := originalSize;
            CompressionResult.compressedSize := compressedSize;
            CompressionResult.compressionRatio := compressionRatio;
            CompressionResult.originalWidth := originalWidth;
            CompressionResult.originalHeight := originalHeight
          |}
      end
  end.
End CompressImage.

(** ** processBatchImages *)

(** [name.replace(/\.[^/.]+$/, '')]: the text from the last dot on is cut
    when it is a dot followed by one or more characters other than a dot
    and a slash. *)
Fixpoint is_extension_tail (s : string) : bool :=
  match s with
  | EmptyString => false
  | String c EmptyString => negb (Ascii.eqb c "." || Ascii.eqb c "/")
  | String c rest => negb (Ascii.eqb c "." || Ascii.eqb c "/") && is_extension_tail rest
  end.

Fixpoint strip_extension (s : string) : string :=
  match s with
  | EmptyString => EmptyString
  | String c rest =>
      if Ascii.eqb c "." && is_extension_tail rest then EmptyString
      else String c (strip_extension rest)
  end.

Module ImageItem.
(** An element of [images]: [{file, name, dataUrl, size}]. *)
Record t {File : Type} := {
  file : option File;
  dataUrl : option string;
  name : option string;
  size : option Z
}.
Arguments t : clear implicits.
End ImageItem.

Module BatchResult.
(** An element of the array [processBatchImages] returns.  The failure
    object has no [originalSize] key. *)
Record t {num : Type} := {
  originalName : option string;
  fileName : option string;
  dataUrl : option string;
  originalSize : option Z;
  stats : option (CompressionResult.t num);
  success : bool;
  error : option string
}.
Arguments t : clear implicits.
End BatchResult.

(** What [image.file || image.dataUrl] evaluates to. *)
Inductive imageInput (File : Type) : Type :=
  | FromFile (f : File)
  | FromDataUrl (url : string)
  | NoInput.
Arguments FromFile {File} f.
Arguments FromDataUrl {File} url.
Arguments NoInput {File}.

(** What the batch loop does, in order. *)
Inductive event : Type :=
  | EvProgress (current total : nat)   (* onProgress(current, total) is called *)
  | EvCompress (index : nat)           (* compressImage is called on images[index] *)
  | EvPush (index : nat) (ok : bool).  (* results.push for images[index] *)

Section Batch.
Context {num : Type} {File : Type}.

(** [compressImage] as imported by the batch processor, and the optional
    callback; a callback may throw, which is [Some message]. *)
Variable compressImage :
  imageInput File -> CompressionOptions num -> outcome (CompressionResult.t num).
Variable onProgress : option (nat -> nat -> option string).

Definition file_or_dataUrl (image : ImageItem.t File) : imageInput File :=
  match ImageItem.file image with
  | Some f => FromFile f
  | None =>
      match ImageItem.dataUrl image with
      | Some url => FromDataUrl url
      | None => NoInput
      end
  end.

Definition extension_of (compressionOptions : CompressionOptions num) : string :=
  let format := or_else (format compressionOptions) "image/jpeg" in
  if String.eqb format "image/png" then "png"
  else if String.eqb format "image/webp" then "webp" else "jpg".

Definition compressedFileName (i : nat) (image : ImageItem.t File)
    (compressionOptions : CompressionOptions num) : string :=
  let originalName :=
    or_else (ImageItem.name image) ("image_" +:+ pretty (i + 1)%nat) in
  let nameWithoutExt := strip_extension originalName in
  nameWithoutExt +:+ "." +:+ extension_of compressionOptions.

(** The object pushed in the [try] branch. *)
Definition success_entry (i : nat) (image : ImageItem.t File)
    (compressionOptions : CompressionOptions num) (result : CompressionResult.t num)
    : BatchResult.t num := {|
  BatchResult.originalName := ImageItem.name image;
  BatchResult.fileName := Some (compressedFileName i image compressionOptions);
  BatchResult.dataUrl := Some (CompressionResult.base64 result);
  BatchResult.originalSize :=
    Some (match ImageItem.size image with
          | Some s => if s =? 0 then CompressionResult.originalSize result else s
          | None => CompressionResult.originalSize result
          end);
  BatchResult.stats := Some result;
  BatchResult.success := true;
  BatchResult.error := None
|}.

(** The object pushed in the [catch] branch. *)
Definition failure_entry (image : ImageItem.t File) (message : string)
    : BatchResult.t num := {|
  BatchResult.originalName := ImageItem.name image;
  BatchResult.fileName := None;
  BatchResult.dataUrl := None;
  BatchResult.originalSize := None;
  BatchResult.stats := None;
  BatchResult.success := false;
  BatchResult.error := Some message
|}.

(** The [try] block of one turn: how it ends, and the calls it makes. *)
Definition try_item (total i : nat) (image : ImageItem.t File)
    (compressionOptions : CompressionOptions num)
    : outcome (CompressionResult.t num) * list event :=
  match onProgress with
  | Some callback =>
      match callback (i + 1)%nat total with
      | Some message => (Rejected message, [EvProgress (i + 1) total])
      | None =>
          (compressImage (file_or_dataUrl image) compressionOptions,
           [EvProgress (i + 1) total; EvCompress i])
      end
  | None =>
      (compressImage (file_or_dataUrl image) compressionOptions, [EvCompress i])
  end.

(** One turn of the [for] loop: the entry pushed for [images[i]] and the
    events of the turn. *)
Definition process_item (total i : nat) (image : ImageItem.t File)
    (compressionOptions : CompressionOptions num) : BatchResult.t num * list event :=
  let '(ended, calls) := try_item total i image compressionOptions in
  match ended with
  | Resolved result =>
      (success_entry i image compressionOptions result, calls ++ [EvPush i true])
  | Rejected message =>
      (failure_entry image message, calls ++ [EvPush i false])
  end.

(** The loop from index [i] on, over the images not yet visited. *)
Fixpoint batch_loop (total i : nat) (rest : list (ImageItem.t File))
    (compressionOptions : CompressionOptions num)
    (results : list (BatchResult.t num)) (trace : list event)
    : list (BatchResult.t num) * list event :=
  match rest with
  | [] => (results, trace)
  | image :: rest' =>
      let '(entry, events) := process_item total i image compressionOptions in
      batch_loop total (S i) rest' compressionOptions
                 (results ++ [entry]) (trace ++ events)
  end.

(** The returned array, with the trace of what happened. *)
Definition processBatchImages_run (images : list (ImageItem.t File))
    (compressionOptions : CompressionOptions num)
    : list (BatchResult.t num) * list event :=
  batch_loop (length images) 0 images compressionOptions [] [].

Definition processBatchImages (images : list (ImageItem.t File))
    (compressionOptions : CompressionOptions num) : list (BatchResult.t num) :=
  fst (processBatchImages_run images compressionOptions).
End Batch.

(** *** Reading a trace *)

(** The arguments of the calls of [onProgress], in order. *)
Definition progress_calls (trace : list event) : list (nat * nat) :=
  omap (fun e => match e with
                 | EvProgress current total => Some (current, total)
                 | _ => None
                 end) trace.

(** The trace without the calls of [compressImage]: the calls of
    [onProgress] and the pushes, in order. *)
Definition progress_and_pushes (trace : list event) : list event :=
  omap (fun e => match e with
                 | EvCompress _ => None
                 | _ => Some e
                 end) trace.

(** ** createZipFromImages *)

(** The files of a [JSZip] object, by entry name, each with its bytes.
    [zip.file(name, data)] adds the entry or replaces the one of that name.
    Folder entries, which JSZip may add for a name with a slash in it, are
    not files and are left out. *)
Abbreviation archive := (gmap string (list N)).

(** A line written by [console.error]: the text and the error's message. *)
Definition console_line : Type := string * string.

Definition add_entry (zip : archive) (entry : string * list N) : archive :=
  <[fst entry := snd entry]> zip.

(** A name interpolated into a template string or handed to [zip.file]:
    [null] reads "null". *)
Definition name_text (fileName : option string) : string :=
  default "null" fileName.

(** What [handleDownloadZip] hands to [downloadBlob]. *)
Inductive blob : Type :=
  | ArchiveBlob (files : archive)
  | FetchedBlob (body : list N).

(** What the user sees. *)
Inductive ui_effect : Type :=
  | Alert (message : string)
  | Download (content : blob) (fileName : string).

Section Zip.
Context {num : Type}.

(** [window.atob]; it throws on text that is not base64. *)
Variable atob : string -> outcome string.

(** [result.dataUrl.split(',')[1]] handed to [atob], which reads a
    missing second piece as the text "undefined". *)
Definition base64Data (dataUrl : string) : string :=
  default "undefined" (split_on "," dataUrl !! 1%nat).

(** The bytes of a binary string, by [charCodeAt]. *)
Definition bytes_of (binaryString : string) : list N :=
  N_of_ascii <$> String.list_ascii_of_string binaryString.

(** The body of the [for ... of] loop. *)
Definition zip_step (state : archive * list console_line)
    (result : BatchResult.t num) : archive * list console_line :=
  let '(zip, console) := state in
  if BatchResult.success result && truthy (BatchResult.dataUrl result) then
    match atob (base64Data (default "" (BatchResult.dataUrl result))) with
    | Resolved binaryString =>
        (<[name_text (BatchResult.fileName result) := bytes_of binaryString]> zip,
         console)
    | Rejected message =>
        (zip,
         console ++ [("Error adding " +:+ name_text (BatchResult.fileName result)
                        +:+ " to ZIP:", message)])
    end
  else (zip, console).

(** The call [zip.file(name, bytes)] an element of the report leads to,
    if any. *)
Definition zip_entry (result : BatchResult.t num) : option (string * list N) :=
  if BatchResult.success result && truthy (BatchResult.dataUrl result) then
    match atob (base64Data (default "" (BatchResult.dataUrl result))) with
    | Resolved binaryString =>
        Some (name_text (BatchResult.fileName result), bytes_of binaryString)
    | Rejected _ => None
    end
  else None.

(** What [console.error] prints for an element of the report. *)
Definition zip_log (result : BatchResult.t num) : list console_line :=
  if BatchResult.success result && truthy (BatchResult.dataUrl result) then
    match atob (base64Data (default "" (BatchResult.dataUrl result))) with
    | Resolved _ => []
    | Rejected message =>
        [("Error adding " +:+ name_text (BatchResult.fileName result)
            +:+ " to ZIP:", message)]
    end
  else [].

(** The archive built by the loop and what was logged meanwhile. *)
Definition createZipFromImages_run (compressedResults : list (BatchResult.t num))
    : archive * list console_line :=
  fold_left zip_step compressedResults (∅, []).

(** The promise [createZipFromImages] returns; the blob produced by
    [generateAsync] is taken as the files it holds.  The second parameter,
    [zipFileName], is never read. *)
Definition createZipFromImages (compressedResults : list (BatchResult.t num))
    : outcome archive :=
  Resolved (fst (createZipFromImages_run compressedResults)).

(** *** handleDownloadZip (App.jsx) *)

(** [fetch(url)] followed by [res.blob()], and [Date.now()]. *)
Variable fetch : option string -> outcome (list N).
Variable now : Z.

Definition handleDownloadZip (compressedResults : list (BatchResult.t num)) : ui_effect :=
  let successfulResults :=
    filter (fun r => BatchResult.success r = true) compressedResults in
  match successfulResults with
  | [] => Alert "No successfully compressed images to download"
  | [result] =>
      match fetch (BatchResult.dataUrl result) with
      | Resolved body =>
          Download (FetchedBlob body) (name_text (BatchResult.fileName result))
      | Rejected message => Alert ("Error creating download: " +:+ message)
      end
  | _ =>
      match createZipFromImages compressedResults with
      | Resolved zipBlob =>
          Download (ArchiveBlob zipBlob)
                   ("compressed_images_" +:+ pretty now +:+ ".zip")
      | Rejected message => Alert ("Error creating download: " +:+ message)
      end
  end.
End Zip.

(** ** A reference [atob]

    The forgiving-base64 decoder of the HTML standard, to run the archive
    builder on concrete data URLs. *)
Module Base64.
Definition is_whitespace (c : ascii) : bool :=
  let n := N_of_ascii c in
  ((n =? 9) || (n =? 10) || (n =? 12) || (n =? 13) || (n =? 32))%N.

Definition value (c : ascii) : option N :=
  let n := N_of_ascii c in
  if ((65 <=? n) && (n <=? 90))%N then Some (n - 65)%N
  else if ((97 <=? n) && (n <=? 122))%N then Some (n - 71)%N
  else if ((48 <=? n) && (n <=? 57))%N then Some (n + 4)%N
  else if (n =? 43)%N then Some 62%N
  else if (n =? 47)%N then Some 63%N
  else None.

(** Up to two [=] at the end are dropped when the length is a multiple
    of four. *)
Definition strip_padding (data : list ascii) : list ascii :=
  if (length data mod 4 =? 0)%nat then
    match reverse data with
    | "="%char :: "="%char :: rest => reverse rest
    | "="%char :: rest => reverse rest
    | _ => data
    end
  else data.

Definition byte (n : N) : ascii := ascii_of_N (n mod 256).

Fixpoint decode_values (values : list N) : list ascii :=
  match values with
  | a :: b :: c :: d :: rest =>
      let n := (a * 262144 + b * 4096 + c * 64 + d)%N in
      byte (n / 65536) :: byte (n / 256) :: byte n :: decode_values rest
  | [a; b; c] =>
      let n := (a * 4096 + b * 64 + c)%N in
      [byte (n / 1024); byte (n / 4)]
  | [a; b] => [byte ((a * 64 + b) / 16)]
  | _ => []
  end.

Definition atob (text : string) : outcome string :=
  let data :=
    strip_padding
      (filter (fun c => is_whitespace c = false) (String.list_ascii_of_string text)) in
  if (length data mod 4 =? 1)%nat then
    Rejected "The string to be decoded is not correctly encoded."
  else
    match mapM value data with
    | Some values => Resolved (String.string_of_list_ascii (decode_values values))
    | None => Rejected "The string to be decoded is not correctly encoded."
    end.
End Base64.

(** ** A toy browser

    Enough of a browser to run the pipeline on concrete inputs: a data URL
    whose payload is base64 loads as a 2000 by 1000 image, and the canvas
    "encodes" by keeping the payload of the image drawn, marked when a
    quality was passed. *)
Module Toy.
Definition Image : Type := string * (Z * Z).
Definition img_width (img : Image) : Z := fst (snd img).
Definition img_height (img : Image) : Z := snd (snd img).

Definition loadImage (url : string) : option Image :=
  match split_on "," url !! 1%nat with
  | Some payload =>
      match Base64.atob payload with
      | Resolved _ => Some (payload, (2000, 1000))
      | Rejected _ => None
      end
  | None => None
  end.

Definition toDataURL {num : Type} (img : Image) (w h : Z) (format : string)
    (quality : option num) : outcome string :=
  Resolved ("data:" +:+ format +:+ ";base64,"
            +:+ match quality with Some _ => "bG9zc3k6" | None => "" end
            +:+ fst img).

(** The canvas [compressImage] behind the batch processor's import: a
    [File] or a missing input handed to [img.src] is not a loadable URL. *)
Definition compressImage {num : Type} `{!JSNumber num} (input : imageInput unit)
    (options : CompressionOptions num) : outcome (CompressionResult.t num) :=
  match input with
  | FromDataUrl url =>
      compressImage Image img_width img_height loadImage toDataURL url options
  | FromFile _ => Rejected "Failed to load image"
  | NoInput => Rejected "Failed to load image"
  end.

Definition image (name url : string) : ImageItem.t unit := {|
  ImageItem.file := None;
  ImageItem.dataUrl := Some url;
  ImageItem.name := Some name;
  ImageItem.size := None
|}.

Definition fetch (url : option string) : outcome (list N) :=
  Rejected "Failed to fetch".
End Toy.

(** ** Concrete options *)

Section Samples.
Context {num : Type} `{!JSNumber num}.

(** An 800 by 800 box, as in the [medium] preset. *)
Definition box (w h : Z) (keepRatio : bool) : CompressionOptions num := {|
  maxWidth := Some w; maxHeight := Some h; quality := None;
  format := Some "image/jpeg"; maintainAspectRatio := Some keepRatio;
  preserveDimensions := None |}.

Definition with_preserveDimensions (flag : option bool)
    (options : CompressionOptions num) : CompressionOptions num := {|
  maxWidth := maxWidth options; maxHeight := maxHeight options;
  quality := quality options; format := format options;
  maintainAspectRatio := maintainAspectRatio options;
  preserveDimensions := flag |}.

Definition with_quality (q : option num)
    (options : CompressionOptions num) : CompressionOptions num := {|
  maxWidth := maxWidth options; maxHeight := maxHeight options;
  quality := q; format := format options;
  maintainAspectRatio := maintainAspectRatio options;
  preserveDimensions := preserveDimensions options |}.

Definition with_format (f : option string)
    (options : CompressionOptions num) : CompressionOptions num := {|
  maxWidth := maxWidth options; maxHeight := maxHeight options;
  quality := quality options; format := f;
  maintainAspectRatio := maintainAspectRatio options;
  preserveDimensions := preserveDimensions options |}.
End Samples.

(** ** The "Preserve Original Dimensions" box (CompressionSettings.jsx) *)

(** A call [handleCustomOptionChange(key, value)] for the keys the box
    touches. *)
Inductive option_change : Type :=
  | SetPreserveDimensions (value : bool)
  | SetMaxWidth (value : Z)
  | SetMaxHeight (value : Z).

Section Settings.
Context {num : Type}.

(** [{ ...customOptions, [key]: value }], the object the call hands to
    [onOptionsChange]. *)
Definition handleCustomOptionChange (customOptions : CompressionOptions num)
    (change : option_change) : CompressionOptions num :=
  match change with
  | SetPreserveDimensions value => {|
      maxWidth := maxWidth customOptions; maxHeight := maxHeight customOptions;
      quality := quality customOptions; format := format customOptions;
      maintainAspectRatio := maintainAspectRatio customOptions;
      preserveDimensions := Some value |}
  | SetMaxWidth value => {|
      maxWidth := Some value; maxHeight := maxHeight customOptions;
      quality := quality customOptions; format := format customOptions;
      maintainAspectRatio := maintainAspectRatio customOptions;
      preserveDimensions := preserveDimensions customOptions |}
  | SetMaxHeight value => {|
      maxWidth := maxWidth customOptions; maxHeight := Some value;
      quality := quality customOptions; format := format customOptions;
      maintainAspectRatio := maintainAspectRatio customOptions;
      preserveDimensions := preserveDimensions customOptions |}
  end.

(** The box's [onChange]: three calls in one event, each spreading the
    [customOptions] of the render the click happened in; the objects reach
    [onOptionsChange] in this order. *)
Definition preserve_onChange (customOptions : CompressionOptions num)
    (preserve : bool) : list (CompressionOptions num) :=
  [handleCustomOptionChange customOptions (SetPreserveDimensions preserve);
   handleCustomOptionChange customOptions
     (SetMaxWidth (if preserve then 9999 else 800));
   handleCustomOptionChange customOptions
     (SetMaxHeight (if preserve then 9999 else 800))].

(** [handleOptionsChange] of App.jsx keeps the object it was handed last. *)
Definition handleOptionsChange (compressionOptions : CompressionOptions num)
    (handed : list (CompressionOptions num)) : CompressionOptions num :=
  default compressionOptions (last handed).
End Settings.

(** The encoded image of a [compressImage] promise. *)
Definition output_bytes {num : Type} (ended : outcome (CompressionResult.t num))
    : outcome string :=
  match ended with
  | Resolved result => Resolved (CompressionResult.base64 result)
  | Rejected message => Rejected message
  end.

(** ** Concrete reports *)

(** One image whose data URL does not load. *)
Definition failed_report : list (BatchResult.t Q) :=
  processBatchImages Toy.compressImage None
    [Toy.image "b.png" "data:image/png;base64,a"] (box 800 800 true).

(** Two images, [a.png] and [a.gif], compressed to JPEG. *)
Definition colliding_report : list (BatchResult.t Q) :=
  processBatchImages Toy.compressImage None
    [Toy.image "a.png" "data:image/png;base64,Zmlyc3Q=";
     Toy.image "a.gif" "data:image/gif;base64,c2Vjb25k"] (box 800 800 true).

(** Three images, the second one corrupt. *)
Definition mixed_report : list (BatchResult.t Q) :=
  processBatchImages Toy.compressImage None
    [Toy.image "one.png" "data:image/png;base64,Zmlyc3Q=";
     Toy.image "two.png" "data:image/png;base64,a";
     Toy.image "three.png" "data:image/png;base64,c2Vjb25k"] (box 800 800 true).

(** An entry marked successful whose [dataUrl] is not base64. *)
Definition undecodable_entry : BatchResult.t Q := {|
  BatchResult.originalName := Some "x.png";
  BatchResult.fileName := Some "x.jpg";
  BatchResult.dataUrl := Some "data:image/jpeg;base64,@@@@";
  BatchResult.originalSize := Some 4;
  BatchResult.stats := None;
  BatchResult.success := true;
  BatchResult.error := None
|}.

(** ** More readers and callers *)

(** The indices of the images handed to [compressImage], in order. *)
Definition compress_calls (trace : list event) : list nat :=
  omap (fun e => match e with
                 | EvCompress index => Some index
                 | _ => None
                 end) trace.

(** Whether the progress call of the turn of [images[i]] throws. *)
Definition callback_throws (onProgress : option (nat -> nat -> option string))
    (total i : nat) : bool :=
  match onProgress with
  | Some callback =>
      match callback (i + 1)%nat total with
      | Some _ => true
      | None => false
      end
  | None => false
  end.

(** *** App.jsx: the list of selected images and the totals *)

(** [array.filter((_, i) => keep(i))]. *)
Definition filter_by_index {A : Type} (keep : nat -> bool) (l : list A) : list A :=
  omap id (imap (fun i x => if keep i then Some x else None) l).

Section App.
Context {num : Type} {File : Type}.

(** [handleRemoveImage(index)]: the new [selectedImages] and the new
    [selectedImage], the data URL shown in the preview ([None]: [null] or
    [undefined]). Its two branches for a list that is not empty do the
    same. *)
Definition handleRemoveImage (selectedImages : list (ImageItem.t File)) (index : nat)
    : list (ImageItem.t File) * option string :=
  let newImages := filter_by_index (fun i => negb (i =? index)%nat) selectedImages in
  (newImages,
   match newImages with
   | first :: _ => ImageItem.dataUrl first
   | [] => None
   end).

(** [getSuccessCount()]. *)
Definition getSuccessCount (compressedResults : list (BatchResult.t num)) : nat :=
  length (filter (fun r => BatchResult.success r = true) compressedResults).

(** [getTotalCompressedSize()]: the sum of [stats.compressedSize] over the
    entries with [success] and [stats]. *)
Definition getTotalCompressedSize (compressedResults : list (BatchResult.t num)) : Z :=
  foldl (fun sum r =>
           sum + match BatchResult.stats r with
                 | Some stats => CompressionResult.compressedSize stats
                 | None => 0
                 end)
        0
        (filter (fun r => BatchResult.success r = true
                          /\ is_Some (BatchResult.stats r)) compressedResults).
End App.

(** ** The presets *)

(** [COMPRESSION_PRESETS], in the order of its keys. *)
Definition COMPRESSION_PRESETS : list (string * CompressionOptions Q) :=
  let preset (w h : Z) (q : Q) (f : string) : CompressionOptions Q := {|
    maxWidth := Some w; maxHeight := Some h; quality := Some q;
    format := Some f; maintainAspectRatio := Some true;
    preserveDimensions := None |} in
  [("low", preset 400 400 (6 # 10) "image/jpeg");
   ("medium", preset 800 800 (7 # 10) "image/jpeg");
   ("high", preset 1200 1200 (85 # 100) "image/jpeg");
   ("webp", preset 1000 1000 (8 # 10) "image/webp");
   ("png", preset 1200 1200 (9 # 10) "image/png")].

(** [a === b] on two numbers that may be [undefined]. *)
Definition same_number (a b : option Q) : bool :=
  match a, b with
  | Some x, Some y => Qeq_bool x y
  | None, None => true
  | _, _ => false
  end.

(** The initial [activePreset] of the settings panel: the first preset
    whose [maxWidth], [maxHeight], [quality] and [format] are those of the
    current options, or "custom". *)
Definition initial_activePreset (compressionOptions : CompressionOptions Q) : string :=
  match
    List.find (fun entry : string * CompressionOptions Q =>
                 bool_decide (maxWidth (snd entry) = maxWidth compressionOptions)
                 && bool_decide (maxHeight (snd entry) = maxHeight compressionOptions)
                 && same_number (quality (snd entry)) (quality compressionOptions)
                 && bool_decide (format (snd entry) = format compressionOptions))
              COMPRESSION_PRESETS
  with
  | Some (name, _) => name
  | None => "custom"
  end.

(** [handlePresetChange(presetName)] for a key of the presets: the preset
    with [preserveDimensions: false]. *)
Definition handlePresetChange (preset : CompressionOptions Q) : CompressionOptions Q :=
  with_preserveDimensions (Some false) preset.

Definition with_maintainAspectRatio {num : Type} (keep : option bool)
    (options : CompressionOptions num) : CompressionOptions num := {|
  maxWidth := maxWidth options; maxHeight := maxHeight options;
  quality := quality options; format := format options;
  maintainAspectRatio := keep;
  preserveDimensions := preserveDimensions options |}.

(** A result with its [quality] field replaced. *)
Definition with_result_quality {num : Type} (q : num) (result : CompressionResult.t num)
    : CompressionResult.t num := {|
  CompressionResult.base64 := CompressionResult.base64 result;
  CompressionResult.width := CompressionResult.width result;
  CompressionResult.height := CompressionResult.height result;
  CompressionResult.format := CompressionResult.format result;
  CompressionResult.quality := q;
  CompressionResult.originalSize := CompressionResult.originalSize result;
  CompressionResult.compressedSize := CompressionResult.compressedSize result;
  CompressionResult.compressionRatio := CompressionResult.compressionRatio result;
  CompressionResult.originalWidth := CompressionResult.originalWidth result;
  CompressionResult.originalHeight := CompressionResult.originalHeight result
|}.

(** What the toy browser makes of a small GIF with the default options. *)
Definition toy_result : CompressionResult.t Q := {|
  CompressionResult.base64 := "data:image/jpeg;base64,bG9zc3k6aGVsbG8=";
  CompressionResult.width := 800;
  CompressionResult.height := 400;
  CompressionResult.format := "image/jpeg";
  CompressionResult.quality := (8 # 10)%Q;
  CompressionResult.originalSize := 6;
  CompressionResult.compressedSize := 12;
  CompressionResult.compressionRatio := "-100.0";
  CompressionResult.originalWidth := 2000;
  CompressionResult.originalHeight := 1000
|}.

(** * Properties *)

(** ** Rounding in exact arithmetic *)

Lemma Qfloor_make (n : Z) (d : positive) : Qfloor (n # d) = n / Z.pos d.
Proof. reflexivity. Qed.

Lemma inject_Z_nonzero (d : Z) : 0 < d -> ~ (inject_Z d == 0)%Q.
Proof.
  intros Hd E. unfold Qeq in E. simpl in E. lia.
Qed.

(** Rounding half up a quotient of integers is one integer division. *)
Lemma Qround_half_up_frac (n d : Z) :
  0 < d -> Qround_half_up (inject_Z n / inject_Z d) = (2 * n + d) / (2 * d).
Proof.
  intros Hd. unfold Qround_half_up.
  assert (E : (inject_Z n / inject_Z d + (1 # 2) == (2 * n + d) # Z.to_pos (2 * d))%Q).
  { rewrite (Qmake_Qdiv (2 * n + d)), Z2Pos.id by lia.
    rewrite !inject_Z_plus, !inject_Z_mult.
    pose proof (inject_Z_nonzero d Hd). field. assumption. }
  rewrite E, Qfloor_make, Z2Pos.id by lia. reflexivity.
Qed.

(** [Math.round(a / (w / h))] on integers. *)
Lemma round_div_ratio (a w h : Z) :
  0 < w -> 0 < h ->
  Qround_half_up (inject_Z a / (inject_Z w / inject_Z h)) = (2 * (a * h) + w) / (2 * w).
Proof.
  intros Hw Hh. rewrite <- Qround_half_up_frac by assumption.
  unfold Qround_half_up. apply Qfloor_comp.
  rewrite inject_Z_mult.
  pose proof (inject_Z_nonzero w Hw). pose proof (inject_Z_nonzero h Hh).
  field. split; assumption.
Qed.

(** [Math.round(a * (w / h))] on integers. *)
Lemma round_mul_ratio (a w h : Z) :
  0 < w -> 0 < h ->
  Qround_half_up (inject_Z a * (inject_Z w / inject_Z h)) = (2 * (a * w) + h) / (2 * h).
Proof.
  intros Hw Hh. rewrite <- Qround_half_up_frac by assumption.
  unfold Qround_half_up. apply Qfloor_comp.
  rewrite inject_Z_mult.
  pose proof (inject_Z_nonzero h Hh).
  field. assumption.
Qed.

(** The rounded quotient [(2 n + d) / (2 d)] is within half a unit of
    [n / d]. *)
Lemma half_up_bounds (n d : Z) :
  0 < d ->
  let r := (2 * n + d) / (2 * d) in
  2 * d * r <= 2 * n + d < 2 * d * r + 2 * d.
Proof.
  intros Hd r. subst r.
  pose proof (Z.mul_div_le (2 * n + d) (2 * d) ltac:(lia)).
  pose proof (Z.mul_succ_div_gt (2 * n + d) (2 * d) ltac:(lia)).
  lia.
Qed.

(** ** The dimension planner *)

Section PlannerFacts.
Context {num : Type} `{!JSNumber num}.

Lemma plan_guard_off (w h : Z) (options : CompressionOptions num) :
  9999 <= maxWidth_or_default options \/ 9999 <= maxHeight_or_default options ->
  planDimensions w h options = (w, h).
Proof.
  intros Hbig. unfold planDimensions.
  destruct (0 <? maxWidth_or_default options); cbn [andb]; [|reflexivity].
  destruct (0 <? maxHeight_or_default options); cbn [andb]; [|reflexivity].
  destruct (Z.ltb_spec (maxWidth_or_default options) 9999); cbn [andb]; [|reflexivity].
  destruct (Z.ltb_spec (maxHeight_or_default options) 9999); [|reflexivity].
  lia.
Qed.

Lemma plan_ignores_preserveDimensions (w h : Z) (flag : option bool)
    (options : CompressionOptions num) :
  planDimensions w h (with_preserveDimensions flag options) = planDimensions w h options.
Proof. reflexivity. Qed.

(** C3: the planner never upscales. When the original width is at most
    [maxWidth] and the original height at most [maxHeight], the planned
    size is the original size, whether or not the aspect ratio is
    maintained, and whatever the number arithmetic is. *)
Theorem plan_never_upscales (w h : Z) (options : CompressionOptions num) :
  w <= maxWidth_or_default options ->
  h <= maxHeight_or_default options ->
  planDimensions w h options = (w, h).
Proof.
  intros Hw Hh. unfold planDimensions.
  destruct (_ && _ && _ && _); [|reflexivity].
  destruct (maintainAspectRatio_or_default options).
  - destruct (Z.ltb_spec (maxWidth_or_default options) w); [lia|].
    destruct (Z.ltb_spec (maxHeight_or_default options) h); [lia|].
    reflexivity.
  - f_equal; lia.
Qed.

(** C2, as the code has it: [compressImage] never reads
    [preserveDimensions]. Whenever [maxWidth] or [maxHeight] is 9999 or
    more (the value the settings form writes into both when the box is
    ticked) the planned size is exactly the original size, whatever the
    flag says; and the flag never changes the plan. *)
Theorem plan_preserves_by_sentinel (w h : Z) (flag : option bool)
    (options : CompressionOptions num) :
  9999 <= maxWidth_or_default options \/ 9999 <= maxHeight_or_default options ->
  planDimensions w h (with_preserveDimensions flag options) = (w, h)
  /\ planDimensions w h (with_preserveDimensions flag options)
     = planDimensions w h options.
Proof.
  intros Hbig. rewrite plan_ignores_preserveDimensions.
  split; [apply plan_guard_off, Hbig | reflexivity].
Qed.
End PlannerFacts.

(** Ticking the box leaves the application with [maxHeight = 9999] and the
    other options, the flag included, as they were; that is enough for the
    planner to keep the original size. *)
Lemma preserve_box_switches_resizing_off {num : Type} `{!JSNumber num} (w h : Z)
    (customOptions compressionOptions : CompressionOptions num) :
  let options :=
    handleOptionsChange compressionOptions (preserve_onChange customOptions true) in
  maxHeight options = Some 9999
  /\ maxWidth options = maxWidth customOptions
  /\ preserveDimensions options = preserveDimensions customOptions
  /\ planDimensions w h options = (w, h).
Proof.
  cbv zeta. repeat split. apply plan_guard_off. right. cbn. lia.
Qed.

Lemma plan_never_upscales_witness :
  planDimensions 500 500 (box 800 800 true : CompressionOptions Q) = (500, 500).
Proof. apply plan_never_upscales; vm_compute; discriminate. Defined.

Lemma plan_preserves_by_sentinel_witness :
  planDimensions 20000 10000
    (with_preserveDimensions (Some true) (box 9999 9999 true : CompressionOptions Q))
  = (20000, 10000)
  /\ planDimensions 20000 10000
       (with_preserveDimensions (Some true) (box 9999 9999 true : CompressionOptions Q))
     = planDimensions 20000 10000 (box 9999 9999 true : CompressionOptions Q).
Proof. apply plan_preserves_by_sentinel. left. vm_compute. discriminate. Defined.

(** C2 fails as stated: with [preserveDimensions] set and an 800 by 800 box
    a 2000 by 1000 image is planned at 800 by 400. *)
Lemma preserveDimensions_not_consulted :
  preserveDimensions (with_preserveDimensions (Some true) (box 800 800 true : CompressionOptions Q))
    = Some true
  /\ planDimensions 2000 1000
       (with_preserveDimensions (Some true) (box 800 800 true : CompressionOptions Q))
     = (800, 400)
  /\ (800, 400) <> (2000, 1000).
Proof. split; [reflexivity | split; [vm_compute; reflexivity | discriminate]]. Qed.

(** The same under binary64 arithmetic. *)
Example preserveDimensions_not_consulted_binary64 :
  planDimensions 2000 1000
    (with_preserveDimensions (Some true) (box 800 800 true : CompressionOptions spec_float))
  = (800, 400).
Proof. vm_compute. reflexivity. Qed.

(** *** The resize branch *)

Lemma rounds_to_nearestb_spec {num : Type} `{!JSNumber num} (w h : Z) :
  rounds_to_nearestb w h = true -> rounds_to_nearest w h.
Proof.
  unfold rounds_to_nearestb. rewrite forallb_forall. intros Hall a Ha.
  specialize (Hall (Z.to_nat a)). rewrite Z2Nat.id in Hall by lia.
  assert (Hin : In (Z.to_nat a) (seq 1 (Z.to_nat 9998))) by (apply in_seq; lia).
  apply Hall in Hin. unfold nearest_atb in Hin.
  apply andb_true_iff in Hin as [H1 H2]. apply Z.leb_le in H1, H2.
  split; assumption.
Qed.

(** Exact arithmetic rounds to nearest, for every size. *)
Lemma exact_rounds_to_nearest (w h : Z) :
  0 < w -> 0 < h -> rounds_to_nearest (num := Q) w h.
Proof.
  intros Hw Hh a Ha. unfold nearest_at, aspectRatio_of.
  cbn [Math_round ndiv nmul of_int exact_number].
  rewrite round_div_ratio, round_mul_ratio by assumption.
  pose proof (half_up_bounds (a * h) w Hw) as B1.
  pose proof (half_up_bounds (a * w) h Hh) as B2. cbv zeta in B1, B2.
  split; lia.
Qed.

(** A nearest integer to a positive quotient [a * h / w] is not negative,
    and is positive unless the quotient is at most one half. *)
Lemma nearest_nonneg (a w h r : Z) :
  0 < w -> 0 < h -> 0 < a ->
  2 * Z.abs (r * w - a * h) <= w ->
  0 <= r.
Proof.
  intros Hw Hh Ha Hr.
  assert (0 < a * h) by nia.
  assert (- w < 2 * (r * w)) by lia.
  nia.
Qed.

Lemma nearest_positive (a w h r : Z) :
  0 < w -> 0 < h -> 0 < a ->
  2 * Z.abs (r * w - a * h) <= w ->
  w < 2 * (a * h) ->
  1 <= r.
Proof.
  intros Hw Hh Ha Hr Hlt.
  assert (0 < 2 * (r * w)) by lia.
  nia.
Qed.

(** The second clamp: when the side [r1] derived from [a] along the longer
    axis [w] overshoots its bound [b], the side [r2] derived back from [b]
    is at most [a]. *)
Lemma second_pass (a b w h r1 r2 : Z) :
  0 < h <= w -> 0 < a -> 0 < b ->
  2 * Z.abs (r1 * w - a * h) <= w ->
  b < r1 ->
  2 * Z.abs (r2 * h - b * w) <= h ->
  1 <= r2 <= a.
Proof.
  intros Hhw Ha Hb H1 Hov H2.
  assert (E1 : (b + 1) * w <= r1 * w) by nia.
  assert (E2 : 2 * (b * w) + w <= 2 * (a * h)) by lia.
  assert (E3 : 2 * (r2 * h) <= 2 * (a * h)) by lia.
  assert (E4 : 1 * w <= b * w) by nia.
  assert (E5 : 0 < 2 * (r2 * h)) by lia.
  split; nia.
Qed.

(** The proportions for which the first clamp leaves more than half a
    pixel on the derived side. *)
Lemma moderate_ratio (w h maxW maxH : Z) :
  0 < h <= w -> 0 < maxW -> 0 < maxH ->
  Z.max w h < 2 * Z.min w h * Z.min maxW maxH ->
  w < 2 * (Z.min w maxW * h).
Proof.
  intros Hhw HW HH. rewrite Z.max_l, (Z.min_r w h) by lia.
  set (m := Z.min maxW maxH). assert (Hm : 0 < m <= maxW) by (unfold m; lia).
  clearbody m. intros Hlt.
  destruct (Z.min_spec w maxW) as [[_ ->]|[_ ->]].
  - assert (1 * w <= h * w) by nia. lia.
  - assert (h * m <= h * maxW) by nia. lia.
Qed.

Section NearestPlanner.
Context {num : Type} `{!JSNumber num}.
Variables w h : Z.
Hypothesis Hw : 0 < w.
Hypothesis Hh : 0 < h.
Hypothesis Hnear : rounds_to_nearest w h.

(** Inside the guard, with the aspect ratio kept: the plan fits the box,
    is never negative, one side is the proportional value of the other
    rounded to a nearest integer, and both sides are at least 1 when the
    longer original side is less than [2 * min maxWidth maxHeight] times
    the shorter one. *)
Lemma plan_keep_ratio (options : CompressionOptions num) :
  maintainAspectRatio_or_default options = true ->
  0 < maxWidth_or_default options < 9999 ->
  0 < maxHeight_or_default options < 9999 ->
  let '(newWidth, newHeight) := planDimensions w h options in
  (newWidth <= maxWidth_or_default options
   /\ newHeight <= maxHeight_or_default options)
  /\ 2 * Z.abs (newWidth * h - newHeight * w) <= Z.max w h
  /\ (0 <= newWidth /\ 0 <= newHeight)
  /\ (Z.max w h < 2 * Z.min w h
                  * Z.min (maxWidth_or_default options) (maxHeight_or_default options) ->
      1 <= newWidth /\ 1 <= newHeight).
Proof.
  intros Hkeep HW HH. unfold planDimensions. rewrite Hkeep.
  set (maxW := maxWidth_or_default options) in *.
  set (maxH := maxHeight_or_default options) in *.
  fold (aspectRatio_of w h).
  replace ((0 <? maxW) && (0 <? maxH) && (maxW <? 9999) && (maxH <? 9999))
    with true by (symmetry; rewrite !andb_true_iff, !Z.ltb_lt; lia).
  destruct ((maxW <? w) || (maxH <? h)) eqn:Hexceeds.
  2: { apply orb_false_iff in Hexceeds as [H1 H2]. apply Z.ltb_ge in H1, H2.
       repeat split; lia. }
  clear Hexceeds.
  destruct (Z.ltb_spec h w) as [Hor|Hor].
  - (* wider than long: the width is clamped first *)
    set (a := Z.min w maxW).
    assert (Ha : 0 < a < 9999) by (unfold a; lia).
    destruct (Hnear a Ha) as [D1 _].
    destruct (Hnear maxH HH) as [_ M2].
    set (r1 := Math_round (ndiv (of_int a) (aspectRatio_of w h))) in *.
    set (r2 := Math_round (nmul (of_int maxH) (aspectRatio_of w h))) in *.
    destruct (Z.ltb_spec maxH r1) as [Hov|Hov].
    + pose proof (second_pass a maxH w h r1 r2 ltac:(lia) ltac:(lia) ltac:(lia)
                    D1 Hov M2) as [Hpos Hle].
      repeat split; unfold a in *; lia.
    + pose proof (nearest_nonneg a w h r1 Hw Hh ltac:(lia) D1) as Hnn.
      repeat split; try (unfold a in *; lia).
      apply (nearest_positive a w h r1 Hw Hh ltac:(lia) D1).
      apply (moderate_ratio w h maxW maxH); [lia | lia | lia | assumption].
  - (* at least as long as wide: the height is clamped first *)
    set (a := Z.min h maxH).
    assert (Ha : 0 < a < 9999) by (unfold a; lia).
    destruct (Hnear a Ha) as [_ M1].
    destruct (Hnear maxW HW) as [D2 _].
    set (r1 := Math_round (nmul (of_int a) (aspectRatio_of w h))) in *.
    set (r2 := Math_round (ndiv (of_int maxW) (aspectRatio_of w h))) in *.
    destruct (Z.ltb_spec maxW r1) as [Hov|Hov].
    + pose proof (second_pass a maxW h w r1 r2 ltac:(lia) ltac:(lia) ltac:(lia)
                    M1 Hov D2) as [Hpos Hle].
      repeat split; unfold a in *; lia.
    + pose proof (nearest_nonneg a h w r1 Hh Hw ltac:(lia) M1) as Hnn.
      repeat split; try (unfold a in *; lia).
      apply (nearest_positive a h w r1 Hh Hw ltac:(lia) M1).
      apply (moderate_ratio h w maxH maxW); [lia | lia | lia |].
      by rewrite Z.max_comm, (Z.min_comm h w), (Z.min_comm maxH maxW).
Qed.
End NearestPlanner.

Lemma Qround_half_away_nonneg (x : Q) :
  (0 <= x)%Q -> Qround_half_away x = Qround_half_up x.
Proof.
  intros Hx. unfold Qround_half_away.
  apply Qle_bool_iff in Hx. rewrite Hx. reflexivity.
Qed.

(** The two roundings part on negative ties. *)
Example Qround_negative_tie :
  Qround_half_up (- (5 # 2)) = -2 /\ Qround_half_away (- (5 # 2)) = -3.
Proof. split; reflexivity. Qed.

Lemma ratio_pos (w h : Z) : 0 < w -> 0 < h -> (0 < inject_Z w / inject_Z h)%Q.
Proof.
  intros Hw Hh. apply Qlt_shift_div_l.
  - change 0%Q with (inject_Z 0). rewrite <- Zlt_Qlt. exact Hh.
  - rewrite Qmult_0_l. change 0%Q with (inject_Z 0). rewrite <- Zlt_Qlt. exact Hw.
Qed.

Lemma div_ratio_nonneg (a w h : Z) :
  0 <= a -> 0 < w -> 0 < h -> (0 <= inject_Z a / (inject_Z w / inject_Z h))%Q.
Proof.
  intros Ha Hw Hh. apply Qle_shift_div_l; [apply ratio_pos; assumption|].
  rewrite Qmult_0_l. change 0%Q with (inject_Z 0). rewrite <- Zle_Qle. exact Ha.
Qed.

Lemma mul_ratio_nonneg (a w h : Z) :
  0 <= a -> 0 < w -> 0 < h -> (0 <= inject_Z a * (inject_Z w / inject_Z h))%Q.
Proof.
  intros Ha Hw Hh. apply Qmult_le_0_compat.
  - change 0%Q with (inject_Z 0). rewrite <- Zle_Qle. exact Ha.
  - apply Qlt_le_weak, ratio_pos; assumption.
Qed.

(** On positive sizes [Math.round] only meets non-negative values, where
    rounding half up is rounding half away from zero. *)
Lemma plan_rounds_half_away (w h : Z) (options : CompressionOptions Q) :
  0 < w -> 0 < h ->
  @planDimensions Q half_away_number w h options
  = @planDimensions Q exact_number w h options.
Proof.
  intros Hw Hh. unfold planDimensions.
  destruct (Z.ltb_spec 0 (maxWidth_or_default options)) as [HW|HW];
    cbn [andb]; [|reflexivity].
  destruct (Z.ltb_spec 0 (maxHeight_or_default options)) as [HH|HH];
    cbn [andb]; [|reflexivity].
  cbn [Math_round ndiv nmul of_int exact_number half_away_number].
  rewrite !Qround_half_away_nonneg
    by (first [apply div_ratio_nonneg | apply mul_ratio_nonneg]; lia).
  reflexivity.
Qed.

(** Binary64 differs from exact arithmetic on ties: for an 18 by 7 image in
    a 9 by 3 box the exact height [9 * 7 / 18] is 3.5, rounded to 4 and
    clamped with the width recomputed, while the double just below 3.5
    rounds to 3. Both plans fit the box. *)
Example binary64_tie :
  planDimensions 18 7 (box 9 3 true : CompressionOptions Q) = (8, 3)
  /\ planDimensions 18 7 (box 9 3 true : CompressionOptions spec_float) = (9, 3).
Proof. split; vm_compute; reflexivity. Qed.

(** C1, as the code has it: for positive original sizes, with the aspect
    ratio maintained and [maxWidth], [maxHeight] between 1 and 9998 (outside
    that range nothing is resized), and an arithmetic that rounds to
    nearest for the size (exact arithmetic does for every size, binary64 is
    checked size by size): the planned size fits the box, and one side is
    the proportional value of the other rounded to a nearest integer, that
    is [2 * |newWidth * height - newHeight * width| <= max width height]. *)
Theorem plan_fits_box_keeps_ratio {num : Type} `{!JSNumber num} (w h : Z)
    (options : CompressionOptions num) :
  0 < w -> 0 < h ->
  rounds_to_nearest w h ->
  maintainAspectRatio_or_default options = true ->
  0 < maxWidth_or_default options < 9999 ->
  0 < maxHeight_or_default options < 9999 ->
  let '(newWidth, newHeight) := planDimensions w h options in
  newWidth <= maxWidth_or_default options
  /\ newHeight <= maxHeight_or_default options
  /\ 2 * Z.abs (newWidth * h - newHeight * w) <= Z.max w h.
Proof.
  intros Hw Hh Hnear Hkeep HW HH.
  pose proof (plan_keep_ratio w h Hw Hh Hnear options Hkeep HW HH) as P.
  destruct (planDimensions w h options) as [newWidth newHeight].
  tauto.
Qed.

Lemma plan_fits_box_keeps_ratio_witness :
  let '(newWidth, newHeight) :=
    planDimensions 1999 1501 (box 800 600 true : CompressionOptions spec_float) in
  newWidth <= 800 /\ newHeight <= 600
  /\ 2 * Z.abs (newWidth * 1501 - newHeight * 1999) <= Z.max 1999 1501.
Proof.
  apply (plan_fits_box_keeps_ratio 1999 1501
           (box 800 600 true : CompressionOptions spec_float));
    first [ apply rounds_to_nearestb_spec; vm_compute; reflexivity
          | reflexivity
          | vm_compute; split; reflexivity ].
Defined.

(** The same in exact arithmetic, where the hypothesis on rounding holds
    for every size. *)
Corollary plan_fits_box_keeps_ratio_exact (w h : Z) (options : CompressionOptions Q) :
  0 < w -> 0 < h ->
  maintainAspectRatio_or_default options = true ->
  0 < maxWidth_or_default options < 9999 ->
  0 < maxHeight_or_default options < 9999 ->
  let '(newWidth, newHeight) := planDimensions w h options in
  newWidth <= maxWidth_or_default options
  /\ newHeight <= maxHeight_or_default options
  /\ 2 * Z.abs (newWidth * h - newHeight * w) <= Z.max w h.
Proof.
  intros Hw Hh Hkeep HW HH.
  pose proof (plan_keep_ratio w h Hw Hh (exact_rounds_to_nearest w h Hw Hh)
                options Hkeep HW HH) as P.
  destruct (planDimensions w h options) as [newWidth newHeight].
  tauto.
Qed.

(** C1 fails as stated: with positive [maxWidth = maxHeight = 10000] and the
    aspect ratio maintained, a 20000 by 10000 image keeps its size and
    exceeds the box. *)
Lemma plan_exceeds_large_box :
  maintainAspectRatio (box 10000 10000 true : CompressionOptions spec_float) = Some true
  /\ planDimensions 20000 10000 (box 10000 10000 true : CompressionOptions spec_float)
     = (20000, 10000)
  /\ ~ (20000 <= 10000 /\ 10000 <= 10000).
Proof. split; [reflexivity | split; [vm_compute; reflexivity | lia]]. Qed.

Example plan_exceeds_large_box_exact :
  planDimensions 20000 10000 (box 10000 10000 true : CompressionOptions Q)
  = (20000, 10000).
Proof. vm_compute. reflexivity. Qed.

(** C4, as the code has it: for positive original sizes and an arithmetic
    that rounds to nearest for the size, a planned side is never negative,
    but nothing floors it at 1. Both sides are at least 1 when the aspect
    ratio is not maintained, or when the longer original side is less than
    [2 * min maxWidth maxHeight] times the shorter one. [Math.round] rounds
    half up, which on the values met here is rounding half away from zero:
    in exact arithmetic either rounding gives the same plan. *)
Theorem plan_never_negative {num : Type} `{!JSNumber num} (w h : Z)
    (options : CompressionOptions num) :
  0 < w -> 0 < h ->
  rounds_to_nearest w h ->
  let '(newWidth, newHeight) := planDimensions w h options in
  (0 <= newWidth /\ 0 <= newHeight)
  /\ (maintainAspectRatio_or_default options = false
      \/ Z.max w h < 2 * Z.min w h
                     * Z.min (maxWidth_or_default options) (maxHeight_or_default options) ->
      1 <= newWidth /\ 1 <= newHeight)
  /\ (forall exact_options : CompressionOptions Q,
        @planDimensions Q half_away_number w h exact_options
        = @planDimensions Q exact_number w h exact_options).
Proof.
  intros Hw Hh Hnear.
  assert (Haway : forall exact_options : CompressionOptions Q,
            @planDimensions Q half_away_number w h exact_options
            = @planDimensions Q exact_number w h exact_options)
    by (intros; by apply plan_rounds_half_away).
  set (maxW := maxWidth_or_default options). set (maxH := maxHeight_or_default options).
  destruct (decide (0 < maxW < 9999 /\ 0 < maxH < 9999)) as [[HW HH]|Hoff].
  - destruct (maintainAspectRatio_or_default options) eqn:Hkeep.
    + pose proof (plan_keep_ratio w h Hw Hh Hnear options Hkeep HW HH) as P.
      destruct (planDimensions w h options) as [newWidth newHeight].
      destruct P as (_ & _ & Hnn & Hpos).
      split; [exact Hnn|]. split; [|exact Haway].
      intros [Hk|Hr]; [discriminate|auto].
    + unfold planDimensions. rewrite Hkeep. fold maxW maxH.
      replace ((0 <? maxW) && (0 <? maxH) && (maxW <? 9999) && (maxH <? 9999))
        with true by (symmetry; rewrite !andb_true_iff, !Z.ltb_lt; lia).
      repeat split; first [lia | apply Haway].
  - unfold planDimensions. fold maxW maxH.
    replace ((0 <? maxW) && (0 <? maxH) && (maxW <? 9999) && (maxH <? 9999))
      with false
      by (symmetry; rewrite !andb_false_iff, !Z.ltb_ge; lia).
    repeat split; first [lia | apply Haway].
Qed.

Lemma plan_never_negative_witness :
  let '(newWidth, newHeight) :=
    planDimensions 1000 3 (box 100 100 true : CompressionOptions spec_float) in
  (0 <= newWidth /\ 0 <= newHeight)
  /\ (maintainAspectRatio_or_default (box 100 100 true : CompressionOptions spec_float)
      = false
      \/ Z.max 1000 3 < 2 * Z.min 1000 3 * Z.min 100 100 ->
      1 <= newWidth /\ 1 <= newHeight)
  /\ (forall exact_options : CompressionOptions Q,
        @planDimensions Q half_away_number 1000 3 exact_options
        = @planDimensions Q exact_number 1000 3 exact_options).
Proof.
  apply (plan_never_negative 1000 3
           (box 100 100 true : CompressionOptions spec_float));
    first [ apply rounds_to_nearestb_spec; vm_compute; reflexivity | reflexivity ].
Defined.

(** C4 fails as stated: a 1000 by 1 image in a 100 by 100 box with the
    aspect ratio maintained is planned at 100 by 0. *)
Lemma plan_rounds_height_to_zero :
  planDimensions 1000 1 (box 100 100 true : CompressionOptions spec_float) = (100, 0)
  /\ ~ (1 <= 0).
Proof. split; [vm_compute; reflexivity | lia]. Qed.

Example plan_rounds_height_to_zero_exact :
  planDimensions 1000 1 (box 100 100 true : CompressionOptions Q) = (100, 0).
Proof. vm_compute. reflexivity. Qed.

(** ** The batch loop *)

Section BatchFacts.
Context {num : Type} {File : Type}.
Variable compressImage :
  imageInput File -> CompressionOptions num -> outcome (CompressionResult.t num).
Variable onProgress : option (nat -> nat -> option string).
Variable compressionOptions : CompressionOptions num.

Local Abbreviation turn total i image :=
  (process_item compressImage onProgress total i image compressionOptions).

(** The loop appends, turn by turn, the entry and the events of each
    image still to visit. *)
Lemma batch_loop_unfold (total : nat) (rest : list (ImageItem.t File)) :
  forall (i : nat) (results : list (BatchResult.t num)) (trace : list event),
    batch_loop compressImage onProgress total i rest compressionOptions results trace
    = (results ++ imap (fun k image => fst (turn total (i + k)%nat image)) rest,
       trace ++ mjoin (imap (fun k image => snd (turn total (i + k)%nat image)) rest)).
Proof.
  induction rest as [|image rest IH]; intros i results trace.
  - cbn. by rewrite !app_nil_r.
  - cbn [batch_loop]. destruct (turn total i image) as [entry events] eqn:E.
    rewrite IH. cbn [imap mjoin list_join]. rewrite Nat.add_0_r, E. cbn [fst snd].
    rewrite <- !app_assoc. cbn [app].
    do 2 f_equal.
    + f_equal. apply imap_ext. intros k x _. cbn.
      by replace (i + S k)%nat with (S (i + k)) by lia.
    + do 2 f_equal. apply imap_ext. intros k x _. cbn.
      by replace (i + S k)%nat with (S (i + k)) by lia.
Qed.

Lemma batch_results (images : list (ImageItem.t File)) :
  processBatchImages compressImage onProgress images compressionOptions
  = imap (fun i image => fst (turn (length images) i image)) images.
Proof.
  unfold processBatchImages, processBatchImages_run.
  rewrite batch_loop_unfold. reflexivity.
Qed.

Lemma batch_trace (images : list (ImageItem.t File)) :
  snd (processBatchImages_run compressImage onProgress images compressionOptions)
  = mjoin (imap (fun i image => snd (turn (length images) i image)) images).
Proof.
  unfold processBatchImages_run. rewrite batch_loop_unfold. reflexivity.
Qed.

Lemma turn_rejected (total i : nat) (image : ImageItem.t File) (message : string) :
  fst (try_item compressImage onProgress total i image compressionOptions)
    = Rejected message ->
  fst (turn total i image) = failure_entry image message.
Proof.
  unfold process_item.
  destruct (try_item _ _ _ _ _ _) as [ended calls]. cbn. by intros ->.
Qed.

Lemma turn_compresses (total i : nat) (image : ImageItem.t File) :
  (forall callback, onProgress = Some callback -> callback (i + 1)%nat total = None) ->
  EvCompress i ∈ snd (turn total i image).
Proof.
  intros Hquiet. unfold process_item, try_item.
  destruct onProgress as [callback|].
  - rewrite (Hquiet callback eq_refl).
    destruct (compressImage _ _); cbn; repeat constructor.
  - destruct (compressImage _ _); cbn; repeat constructor.
Qed.

(** The turn of an image whose progress call returns and whose compression
    resolves pushes the success object. *)
Lemma turn_resolved (total i : nat) (image : ImageItem.t File)
    (result : CompressionResult.t num) :
  (forall callback, onProgress = Some callback -> callback (i + 1)%nat total = None) ->
  compressImage (file_or_dataUrl image) compressionOptions = Resolved result ->
  fst (turn total i image) = success_entry i image compressionOptions result.
Proof.
  intros Hquiet Hok. unfold process_item, try_item.
  destruct onProgress as [callback|].
  - rewrite (Hquiet callback eq_refl), Hok. reflexivity.
  - rewrite Hok. reflexivity.
Qed.

Lemma try_compress_rejected (total i : nat) (image : ImageItem.t File)
    (message : string) :
  (forall callback, onProgress = Some callback -> callback (i + 1)%nat total = None) ->
  compressImage (file_or_dataUrl image) compressionOptions = Rejected message ->
  fst (try_item compressImage onProgress total i image compressionOptions)
  = Rejected message.
Proof.
  intros Hquiet Hbad. unfold try_item.
  destruct onProgress as [callback|].
  - rewrite (Hquiet callback eq_refl), Hbad. reflexivity.
  - rewrite Hbad. reflexivity.
Qed.

Lemma try_callback_rejected (total i : nat) (image : ImageItem.t File)
    (callback : nat -> nat -> option string) (message : string) :
  onProgress = Some callback ->
  callback (i + 1)%nat total = Some message ->
  fst (try_item compressImage onProgress total i image compressionOptions)
  = Rejected message.
Proof. intros Hcb Hthrow. unfold try_item. by rewrite Hcb, Hthrow. Qed.

(** C5: the returned array has the length of [images]; its element [i] is
    the entry made from [images[i]] alone; a turn whose [try] block ends
    with an error records [success = false] with that error's message in
    its own slot; and every image whose progress call does not throw is
    handed to [compressImage], whatever happened to the others.  Slot by
    slot, whatever the other images did: when the progress call returns
    and the compression of [images[i]] resolves, slot [i] holds the
    success object, with the name, the derived file name and the size of
    that image, the encoded image and the stats of that result; when the
    compression rejects, or the progress call throws, slot [i] holds the
    failure object with that error's message. *)
Theorem batch_keeps_length_and_order (images : list (ImageItem.t File)) :
  let results :=
    processBatchImages compressImage onProgress images compressionOptions in
  let trace :=
    snd (processBatchImages_run compressImage onProgress images compressionOptions) in
  length results = length images
  /\ (forall i image, images !! i = Some image ->
        results !! i = Some (fst (turn (length images) i image)))
  /\ (forall i image message, images !! i = Some image ->
        fst (try_item compressImage onProgress (length images) i image
               compressionOptions) = Rejected message ->
        exists entry, results !! i = Some entry
                      /\ BatchResult.success entry = false
                      /\ BatchResult.error entry = Some message)
  /\ (forall j image, images !! j = Some image ->
        (forall callback, onProgress = Some callback ->
           callback (j + 1)%nat (length images) = None) ->
        EvCompress j ∈ trace)
  /\ (forall i image result, images !! i = Some image ->
        (forall callback, onProgress = Some callback ->
           callback (i + 1)%nat (length images) = None) ->
        compressImage (file_or_dataUrl image) compressionOptions = Resolved result ->
        results !! i = Some {|
          BatchResult.originalName := ImageItem.name image;
          BatchResult.fileName :=
            Some (strip_extension
                    (or_else (ImageItem.name image) ("image_" +:+ pretty (i + 1)%nat))
                  +:+ "." +:+ extension_of compressionOptions);
          BatchResult.dataUrl := Some (CompressionResult.base64 result);
          BatchResult.originalSize :=
            Some (match ImageItem.size image with
                  | Some s => if s =? 0 then CompressionResult.originalSize result else s
                  | None => CompressionResult.originalSize result
                  end);
          BatchResult.stats := Some result;
          BatchResult.success := true;
          BatchResult.error := None |})
  /\ (forall i image message, images !! i = Some image ->
        (forall callback, onProgress = Some callback ->
           callback (i + 1)%nat (length images) = None) ->
        compressImage (file_or_dataUrl image) compressionOptions = Rejected message ->
        results !! i = Some {|
          BatchResult.originalName := ImageItem.name image;
          BatchResult.fileName := None;
          BatchResult.dataUrl := None;
          BatchResult.originalSize := None;
          BatchResult.stats := None;
          BatchResult.success := false;
          BatchResult.error := Some message |})
  /\ (forall i image callback message, images !! i = Some image ->
        onProgress = Some callback ->
        callback (i + 1)%nat (length images) = Some message ->
        results !! i = Some {|
          BatchResult.originalName := ImageItem.name image;
          BatchResult.fileName := None;
          BatchResult.dataUrl := None;
          BatchResult.originalSize := None;
          BatchResult.stats := None;
          BatchResult.success := false;
          BatchResult.error := Some message |}).
Proof.
  cbv zeta. rewrite batch_results, batch_trace.
  split; [by rewrite length_imap|].
  split; [|split; [|split; [|split; [|split]]]].
  - intros i image Hi. by rewrite list_lookup_imap, Hi.
  - intros i image message Hi Hrej.
    exists (failure_entry image message).
    rewrite list_lookup_imap, Hi. cbn. by rewrite (turn_rejected _ _ _ _ Hrej).
  - intros j image Hj Hquiet.
    apply list_elem_of_join. exists (snd (turn (length images) j image)).
    split; [by apply turn_compresses|].
    apply list_elem_of_lookup. exists j. by rewrite list_lookup_imap, Hj.
  - intros i image result Hi Hquiet Hok.
    rewrite list_lookup_imap, Hi. cbn [fmap option_fmap option_map].
    by rewrite (turn_resolved _ _ _ _ Hquiet Hok).
  - intros i image message Hi Hquiet Hbad.
    rewrite list_lookup_imap, Hi. cbn [fmap option_fmap option_map].
    by rewrite (turn_rejected _ _ _ _ (try_compress_rejected _ _ _ _ Hquiet Hbad)).
  - intros i image callback message Hi Hcb Hthrow.
    rewrite list_lookup_imap, Hi. cbn [fmap option_fmap option_map].
    by rewrite (turn_rejected _ _ _ _
                  (try_callback_rejected _ _ _ _ _ Hcb Hthrow)).
Qed.
End BatchFacts.

(** *** Progress calls *)

Lemma omap_join {A B : Type} (f : A -> option B) (ls : list (list A)) :
  omap f (mjoin ls) = mjoin (omap f <$> ls).
Proof.
  induction ls as [|l ls IH]; [reflexivity|].
  rewrite fmap_cons.
  change (omap f (l ++ mjoin ls) = omap f l ++ mjoin (omap f <$> ls)).
  by rewrite omap_app, IH.
Qed.

Lemma join_imap_singleton {A B : Type} (l : list A) :
  forall f : nat -> A -> B, mjoin (imap (fun i x => [f i x]) l) = imap f l.
Proof.
  induction l as [|x l IH]; intros f; [reflexivity|].
  rewrite !imap_cons.
  change (f 0%nat x :: mjoin (imap ((fun i x => [f i x]) ∘ S) l)
          = f 0%nat x :: imap (f ∘ S) l).
  f_equal. apply (IH (f ∘ S)).
Qed.

Lemma numbered_fst (total n : nat) :
  forall s, fst <$> ((fun i => ((i + 1)%nat, total)) <$> seq s n) = seq (s + 1) n.
Proof.
  induction n as [|n IH]; intros s; [reflexivity|].
  cbn. f_equal. apply (IH (S s)).
Qed.

Lemma numbered_snd (total n : nat) :
  forall s, snd <$> ((fun i => ((i + 1)%nat, total)) <$> seq s n) = replicate n total.
Proof.
  induction n as [|n IH]; intros s; [reflexivity|].
  cbn. f_equal. apply (IH (S s)).
Qed.

(** The events of the turns up to an index, the turn at the index, and the
    later ones. *)
Lemma join_imap_split {A B : Type} (f : nat -> A -> list B) (l : list A)
    (i : nat) (x : A) :
  l !! i = Some x ->
  mjoin (imap f l)
  = mjoin (imap f (take i l)) ++ f i x
    ++ mjoin (imap (fun k => f (S i + k)%nat) (drop (S i) l)).
Proof.
  intros Hi.
  rewrite <- (take_drop_middle l i x Hi) at 1.
  rewrite imap_app, join_app, imap_cons. cbn [mjoin list_join].
  assert (Hlen : length (take i l) = i).
  { rewrite length_take. apply lookup_lt_Some in Hi. lia. }
  rewrite Hlen, Nat.add_0_r. do 2 f_equal.
  f_equal. apply imap_ext. intros k y _. cbn. f_equal. lia.
Qed.

Lemma elem_of_join_imap {A B : Type} (f : nat -> A -> list B) (l : list A) (e : B) :
  e ∈ mjoin (imap f l) <-> exists k x, l !! k = Some x /\ e ∈ f k x.
Proof.
  rewrite list_elem_of_join. split.
  - intros (events & He & Hevents).
    apply list_elem_of_lookup in Hevents as [k Hk].
    rewrite list_lookup_imap in Hk.
    destruct (l !! k) as [x|] eqn:E; [|discriminate].
    injection Hk as <-. by exists k, x.
  - intros (k & x & Hk & He). exists (f k x). split; [assumption|].
    apply list_elem_of_lookup. exists k. by rewrite list_lookup_imap, Hk.
Qed.

Section ProgressFacts.
Context {num : Type} {File : Type}.
Variable compressImage :
  imageInput File -> CompressionOptions num -> outcome (CompressionResult.t num).
Variable callback : nat -> nat -> option string.
Variable compressionOptions : CompressionOptions num.

Local Abbreviation turn total i image :=
  (process_item compressImage (Some callback) total i image compressionOptions).

Lemma turn_progress_calls (total i : nat) (image : ImageItem.t File) :
  progress_calls (snd (turn total i image)) = [((i + 1)%nat, total)].
Proof.
  unfold process_item, try_item.
  destruct (callback _ _); [reflexivity|].
  destruct (compressImage _ _); reflexivity.
Qed.

Lemma turn_progress_and_pushes (total i : nat) (image : ImageItem.t File) :
  progress_and_pushes (snd (turn total i image))
  = [EvProgress (i + 1) total;
     EvPush i (BatchResult.success (fst (turn total i image)))].
Proof.
  unfold process_item, try_item.
  destruct (callback _ _); [reflexivity|].
  destruct (compressImage _ _); reflexivity.
Qed.

(** The events of one turn, read off the callback and [compressImage]. *)
Lemma turn_events (total i : nat) (image : ImageItem.t File) :
  snd (turn total i image)
  = match callback (i + 1)%nat total with
    | Some _ => [EvProgress (i + 1) total; EvPush i false]
    | None =>
        [EvProgress (i + 1) total; EvCompress i;
         EvPush i (match compressImage (file_or_dataUrl image) compressionOptions with
                   | Resolved _ => true
                   | Rejected _ => false
                   end)]
    end.
Proof.
  unfold process_item, try_item.
  destruct (callback _ _); [reflexivity|].
  destruct (compressImage _ _); reflexivity.
Qed.

(** A turn starts with its progress call. *)
Lemma turn_starts_with_progress (total i : nat) (image : ImageItem.t File) :
  exists rest, snd (turn total i image) = EvProgress (i + 1) total :: rest.
Proof. rewrite turn_events. destruct (callback _ _); eauto. Qed.

(** The events of a turn carry the index of the turn. *)
Lemma turn_events_index (total k : nat) (image : ImageItem.t File) (e : event) :
  e ∈ snd (turn total k image) ->
  e = EvProgress (k + 1) total \/ e = EvCompress k \/ exists ok, e = EvPush k ok.
Proof.
  rewrite turn_events.
  destruct (callback _ _); rewrite ?elem_of_cons, elem_of_nil;
    intuition eauto.
Qed.

(** A turn ends with a push. *)
Lemma turn_pushes (total k : nat) (image : ImageItem.t File) :
  exists ok, EvPush k ok ∈ snd (turn total k image).
Proof.
  rewrite turn_events.
  destruct (callback _ _); eexists; rewrite !elem_of_cons; eauto.
Qed.

(** C6, as the code has it: with a callback supplied and [n] images, the
    calls are exactly [(1, n), (2, n), ..., (n, n)] in this order (first
    components strictly increasing, second component always [n], the last
    call [(n, n)]), and call [(i + 1, n)] is made at the start of the turn
    of [images[i]], before its entry is pushed and after the entries of
    all earlier images: calls and pushes alternate, call first.  The whole
    trace is, turn by turn, the call [(i + 1, n)], then the call of
    [compressImage] on [images[i]] unless the callback threw, then the
    push for [images[i]]; so whatever precedes the call [(i + 1, n)]
    holds neither the compression of [images[i]] nor its push, and holds
    the push of every earlier image. *)
Theorem progress_announces_each_item (images : list (ImageItem.t File)) :
  let n := length images in
  let trace :=
    snd (processBatchImages_run compressImage (Some callback) images
           compressionOptions) in
  progress_calls trace = (fun i => ((i + 1)%nat, n)) <$> seq 0 n
  /\ fst <$> progress_calls trace = seq 1 n
  /\ snd <$> progress_calls trace = replicate n n
  /\ last (progress_calls trace) = match n with O => None | S _ => Some (n, n) end
  /\ progress_and_pushes trace
     = mjoin (imap (fun i image =>
                      [EvProgress (i + 1) n;
                       EvPush i (BatchResult.success (fst (turn n i image)))])
                   images)
  /\ trace
     = mjoin (imap (fun i image =>
                      match callback (i + 1)%nat n with
                      | Some _ => [EvProgress (i + 1) n; EvPush i false]
                      | None =>
                          [EvProgress (i + 1) n; EvCompress i;
                           EvPush i (match compressImage (file_or_dataUrl image)
                                             compressionOptions with
                                     | Resolved _ => true
                                     | Rejected _ => false
                                     end)]
                      end)
                   images)
  /\ (forall i, (i < n)%nat ->
        exists before after,
          trace = before ++ EvProgress (i + 1) n :: after
          /\ (EvCompress i ∉ before)
          /\ (forall ok, EvPush i ok ∉ before)
          /\ (forall j, (j < i)%nat -> exists ok, EvPush j ok ∈ before)).
Proof.
  cbv zeta. rewrite batch_trace. unfold progress_calls at 1 2 3 4, progress_and_pushes.
  rewrite !omap_join, !fmap_imap.
  assert (Hcalls :
    mjoin (imap (fun i => omap (fun e => match e with
                                         | EvProgress current total => Some (current, total)
                                         | _ => None
                                         end)
                          ∘ (fun image => snd (turn (length images) i image))) images)
    = (fun i => ((i + 1)%nat, length images)) <$> seq 0 (length images)).
  { transitivity
      (mjoin (imap (fun i (_ : ImageItem.t File) => [((i + 1)%nat, length images)])
                   images)).
    - f_equal. apply imap_ext. intros i image _. apply turn_progress_calls.
    - rewrite join_imap_singleton. apply imap_seq_0. }
  rewrite Hcalls. clear Hcalls.
  split; [reflexivity|]. split; [|split; [|split; [|split; [|split]]]].
  - apply (numbered_fst (length images) (length images) 0).
  - apply numbered_snd.
  - destruct (length images) as [|k] eqn:E; [reflexivity|].
    rewrite seq_S, fmap_app. cbn [fmap list_fmap].
    rewrite last_snoc. do 2 f_equal. lia.
  - f_equal. apply imap_ext. intros i image _. apply turn_progress_and_pushes.
  - f_equal. apply imap_ext. intros i image _. apply turn_events.
  - intros i Hi.
    destruct (lookup_lt_is_Some_2 images i Hi) as [image Himage].
    destruct (turn_starts_with_progress (length images) i image) as [rest Hrest].
    exists (mjoin (imap (fun k image => snd (turn (length images) k image))
                        (take i images))).
    exists (rest ++ mjoin (imap (fun k image =>
                                   snd (turn (length images) (S i + k) image))
                                (drop (S i) images))).
    split; [|split; [|split]].
    + rewrite (join_imap_split _ images i image Himage), Hrest. reflexivity.
    + intros Hin. apply elem_of_join_imap in Hin as (k & x & Hk & Hin).
      apply lookup_take_Some in Hk as [_ Hk].
      apply turn_events_index in Hin as [Hin|[Hin|[ok Hin]]];
        [discriminate | injection Hin as ->; lia | discriminate].
    + intros ok Hin. apply elem_of_join_imap in Hin as (k & x & Hk & Hin).
      apply lookup_take_Some in Hk as [_ Hk].
      apply turn_events_index in Hin as [Hin|[Hin|[ok' Hin]]];
        [discriminate | discriminate | injection Hin as -> _; lia].
    + intros j Hj.
      destruct (lookup_lt_is_Some_2 images j ltac:(lia)) as [x Hx].
      destruct (turn_pushes (length images) j x) as [ok Hok].
      exists ok. apply elem_of_join_imap. exists j, x.
      split; [|assumption]. rewrite lookup_take_lt by assumption. exact Hx.
Qed.
End ProgressFacts.

(** C6 fails as stated: on a batch of one image the call [(1, 1)] is made
    first, before [compressImage] is called on the image and before its
    entry is pushed; no push comes before the call. *)
Lemma progress_called_before_item_is_processed :
  let trace :=
    snd (processBatchImages_run (num := Q) Toy.compressImage (Some (fun _ _ => None))
           [Toy.image "a.png" "data:image/png;base64,aGVsbG8="] (box 800 800 true)) in
  trace = [EvProgress 1 1; EvCompress 0; EvPush 0 true]
  /\ ~ (exists before between after ok,
          trace = before ++ EvPush 0 ok :: between ++ EvProgress 1 1 :: after).
Proof.
  cbv zeta. split; [vm_compute; reflexivity|].
  replace (snd _) with [EvProgress 1 1; EvCompress 0; EvPush 0 true]
    by (vm_compute; reflexivity).
  intros (before & between & after & ok & E).
  destruct before as [|e1 [|e2 [|e3 before]]]; try discriminate.
  - injection E as _ _ E. destruct between as [|? [|? ?]]; discriminate.
  - injection E as _ _ _ E. destruct before; discriminate.
Qed.

(** ** The archive *)

Lemma foldl_add_entry_lookup_other (entries : list (string * list N)) (name : string) :
  name ∉ entries.*1 ->
  forall zip : archive, foldl add_entry zip entries !! name = zip !! name.
Proof.
  induction entries as [|[n b] entries IH]; intros Hfresh zip; [reflexivity|].
  rewrite fmap_cons, not_elem_of_cons in Hfresh. destruct Hfresh as [Hne Hfresh].
  cbn [foldl]. rewrite IH by assumption.
  unfold add_entry. cbn [fst snd] in *. by rewrite lookup_insert_ne.
Qed.

(** Among the calls of [zip.file] with one name, the last decides. *)
Lemma foldl_add_entry_lookup_last (before after : list (string * list N))
    (name : string) (bytes : list N) (zip : archive) :
  name ∉ after.*1 ->
  foldl add_entry zip (before ++ (name, bytes) :: after) !! name = Some bytes.
Proof.
  intros Hfresh. rewrite foldl_app. cbn [foldl].
  rewrite foldl_add_entry_lookup_other by assumption.
  unfold add_entry. cbn [fst snd]. by rewrite lookup_insert_eq.
Qed.

Lemma foldl_add_entry_dom (entries : list (string * list N)) :
  forall zip : archive,
    dom (foldl add_entry zip entries) = dom zip ∪ list_to_set entries.*1.
Proof.
  induction entries as [|[n b] entries IH]; intros zip.
  - cbn. by rewrite (right_id_L ∅ (∪)).
  - cbn [foldl]. rewrite IH. unfold add_entry. cbn [fst snd].
    rewrite dom_insert_L, fmap_cons. cbn [list_to_set fst].
    by rewrite (comm_L (∪) {[n]} (dom zip)), (assoc_L (∪)).
Qed.

Lemma foldl_add_entry_size (entries : list (string * list N)) :
  forall zip : archive,
    (size (foldl add_entry zip entries) <= size zip + length entries)%nat.
Proof.
  induction entries as [|[n b] entries IH]; intros zip; [cbn; lia|].
  cbn [foldl length]. etrans; [apply IH|].
  unfold add_entry. cbn [fst snd].
  destruct (zip !! n) as [old|] eqn:E.
  - rewrite <- (insert_delete_id zip n old E) at 1.
    rewrite insert_insert_eq.
    rewrite map_size_insert_None by apply lookup_delete_eq.
    rewrite <- (insert_delete_id zip n old E) at 2.
    rewrite map_size_insert_None by apply lookup_delete_eq. lia.
  - rewrite map_size_insert_None by assumption. lia.
Qed.

(** A file found after a run of [zip.file] calls was there before or was
    added by one of the calls. *)
Lemma foldl_add_entry_lookup_Some (entries : list (string * list N)) (name : string)
    (bytes : list N) :
  forall zip : archive,
    foldl add_entry zip entries !! name = Some bytes ->
    zip !! name = Some bytes \/ (name, bytes) ∈ entries.
Proof.
  induction entries as [|[n b] entries IH]; intros zip Hfile; [by left|].
  cbn [foldl] in Hfile. apply IH in Hfile as [Hfile|Hin].
  - unfold add_entry in Hfile. cbn [fst snd] in Hfile.
    destruct (decide (n = name)) as [->|Hne].
    + rewrite lookup_insert_eq in Hfile. injection Hfile as ->.
      right. apply list_elem_of_here.
    + rewrite lookup_insert_ne in Hfile by assumption. by left.
  - right. by apply list_elem_of_further.
Qed.

Section ZipFacts.
Context {num : Type}.
Variable atob : string -> outcome string.

Local Abbreviation report := (list (BatchResult.t num)).

Lemma zip_step_entry (zip : archive) (console : list console_line)
    (result : BatchResult.t num) :
  zip_step atob (zip, console) result
  = (match zip_entry atob result with
     | Some entry => add_entry zip entry
     | None => zip
     end,
     console ++ zip_log atob result).
Proof.
  unfold zip_step, zip_entry, zip_log.
  destruct (_ && _); [|by rewrite app_nil_r].
  destruct (atob _); [by rewrite app_nil_r | reflexivity].
Qed.

Lemma zip_run_unfold (results : report) :
  forall (zip : archive) (console : list console_line),
    fold_left (zip_step atob) results (zip, console)
    = (foldl add_entry zip (omap (zip_entry atob) results),
       console ++ mjoin (zip_log atob <$> results)).
Proof.
  induction results as [|r results IH]; intros zip console.
  - cbn. by rewrite app_nil_r.
  - cbn [fold_left]. rewrite zip_step_entry, IH.
    rewrite fmap_cons.
    change (mjoin (zip_log atob r :: (zip_log atob <$> results)))
      with (zip_log atob r ++ mjoin (zip_log atob <$> results)).
    rewrite <- app_assoc. cbn [omap list_omap].
    destruct (zip_entry atob r); reflexivity.
Qed.

Lemma zip_run_archive (results : report) :
  fst (createZipFromImages_run atob results)
  = foldl add_entry ∅ (omap (zip_entry atob) results).
Proof. unfold createZipFromImages_run. by rewrite zip_run_unfold. Qed.

Lemma zip_run_console (results : report) :
  snd (createZipFromImages_run atob results) = mjoin (zip_log atob <$> results).
Proof. unfold createZipFromImages_run. by rewrite zip_run_unfold. Qed.

Lemma zip_entry_success (result : BatchResult.t num) (entry : string * list N) :
  zip_entry atob result = Some entry -> BatchResult.success result = true.
Proof.
  unfold zip_entry. destruct (BatchResult.success result); [done|discriminate].
Qed.

Lemma zip_entries_at_most_successes (results : report) :
  (length (omap (zip_entry atob) results)
   <= length (filter (fun r => BatchResult.success r = true) results))%nat.
Proof.
  induction results as [|r results IH]; [reflexivity|].
  cbn [omap list_omap]. rewrite filter_cons.
  destruct (zip_entry atob r) as [entry|] eqn:E.
  - rewrite decide_True by (by eapply zip_entry_success). cbn. lia.
  - case_decide; cbn; lia.
Qed.

Lemma no_success_no_entry (results : report) :
  Forall (fun r => BatchResult.success r = false) results ->
  omap (zip_entry atob) results = []
  /\ mjoin (zip_log atob <$> results) = []
  /\ filter (fun r => BatchResult.success r = true) results = [].
Proof.
  induction 1 as [|r results Hr _ (IH1 & IH2 & IH3)]; [done|].
  rewrite fmap_cons, filter_cons. cbn [omap list_omap].
  change (mjoin (zip_log atob r :: (zip_log atob <$> results)))
    with (zip_log atob r ++ mjoin (zip_log atob <$> results)).
  assert (zip_entry atob r = None) as -> by (unfold zip_entry; by rewrite Hr).
  assert (zip_log atob r = []) as -> by (unfold zip_log; by rewrite Hr).
  rewrite IH1, IH2, IH3, decide_False by (rewrite Hr; discriminate).
  done.
Qed.

(** The entries that reach [zip.file], by the tests of the loop. *)
Lemma zip_entry_decoded (result : BatchResult.t num) (url binaryString : string) :
  BatchResult.success result = true ->
  BatchResult.dataUrl result = Some url ->
  url <> "" ->
  atob (base64Data url) = Resolved binaryString ->
  zip_entry atob result
  = Some (name_text (BatchResult.fileName result), bytes_of binaryString).
Proof.
  intros Hok Hurl Hne Hatob. unfold zip_entry. rewrite Hok, Hurl.
  destruct url as [|c url]; [done|]. cbn. by rewrite Hatob.
Qed.

Lemma zip_entry_origin (result : BatchResult.t num) (name : string) (bytes : list N) :
  zip_entry atob result = Some (name, bytes) ->
  BatchResult.success result = true
  /\ name = name_text (BatchResult.fileName result)
  /\ exists url binaryString,
       BatchResult.dataUrl result = Some url
       /\ atob (base64Data url) = Resolved binaryString
       /\ bytes = bytes_of binaryString.
Proof.
  unfold zip_entry.
  destruct (BatchResult.success result); [|discriminate].
  destruct (BatchResult.dataUrl result) as [[|c url]|]; try discriminate.
  cbn. destruct (atob _) as [binaryString|] eqn:Hatob; [|discriminate].
  intros [= <- <-]. split; [reflexivity|]. split; [reflexivity|].
  by exists (String c url), binaryString.
Qed.
End ZipFacts.

Section ArchiveClaims.
Context {num : Type}.
Variable atob : string -> outcome string.
Variable fetch : option string -> outcome (list N).
Variable now : Z.

(** C7, as the code has it: on a report without a successful entry
    [createZipFromImages] resolves with an empty archive and logs nothing;
    it has no failure of its own. The "nothing to archive" message is the
    caller's: [handleDownloadZip] alerts it without building an archive,
    and the text differs from every "Error creating download: ..." alert
    it shows when a download fails. *)
Theorem empty_report_gives_empty_archive (results : list (BatchResult.t num)) :
  Forall (fun r => BatchResult.success r = false) results ->
  createZipFromImages atob results = Resolved ∅
  /\ snd (createZipFromImages_run atob results) = []
  /\ handleDownloadZip atob fetch now results
     = Alert "No successfully compressed images to download"
  /\ (forall message,
        Alert "No successfully compressed images to download"
        <> Alert ("Error creating download: " +:+ message)).
Proof.
  intros Hnone.
  destruct (no_success_no_entry atob results Hnone) as (Hentries & Hlog & Hfilter).
  unfold createZipFromImages, handleDownloadZip.
  rewrite zip_run_archive, zip_run_console, Hentries, Hlog, Hfilter.
  repeat split. intros message. discriminate.
Qed.

(** C8, as the code has it: every successful entry that decodes is stored
    under its own [fileName], unchanged; no suffix is added. The names of
    the archive are exactly those file names, and under a name the archive
    holds the bytes of the last entry of that name: of two successes with
    one derived name the later replaces the earlier. *)
Theorem archive_keeps_last_of_each_name (results : list (BatchResult.t num)) :
  let files := fst (createZipFromImages_run atob results) in
  createZipFromImages atob results = Resolved files
  /\ dom files = list_to_set (omap (zip_entry atob) results).*1
  /\ (forall before result after name bytes,
        results = before ++ result :: after ->
        zip_entry atob result = Some (name, bytes) ->
        (forall later bytes', later ∈ after ->
           zip_entry atob later <> Some (name, bytes')) ->
        files !! name = Some bytes)
  /\ (size files <= length (omap (zip_entry atob) results))%nat.
Proof.
  cbv zeta. rewrite zip_run_archive.
  split; [unfold createZipFromImages; by rewrite zip_run_archive|].
  split; [|split].
  - rewrite foldl_add_entry_dom, dom_empty_L. by rewrite (left_id_L ∅ (∪)).
  - intros before result after name bytes -> Hentry Hlast.
    rewrite omap_app. cbn [omap list_omap]. rewrite Hentry.
    apply foldl_add_entry_lookup_last.
    intros Hin. apply list_elem_of_fmap in Hin as ([name' bytes'] & Hname & Hin).
    cbn in Hname. subst name'.
    apply list_elem_of_omap in Hin as (later & Hlater & Hentry').
    exact (Hlast later bytes' Hlater Hentry').
  - etrans; [apply foldl_add_entry_size|]. rewrite map_size_empty. lia.
Qed.

(** C10: an entry marked successful whose payload [atob] rejects adds
    nothing to the archive: the archive is the one built from the other
    entries, the promise still resolves, the only trace is a line on the
    console, and the archive has fewer files than the report has
    successes.  The other entries are all there: each successful entry
    among them that decodes and is the last of its file name is a file of
    the archive, under that name and with its decoded bytes, also when
    the undecodable entry comes later under the same name; and every file
    of the archive is such an entry. *)
Theorem undecodable_entry_is_dropped (before after : list (BatchResult.t num))
    (result : BatchResult.t num) (url message : string) :
  BatchResult.success result = true ->
  BatchResult.dataUrl result = Some url ->
  url <> "" ->
  atob (base64Data url) = Rejected message ->
  let results := before ++ result :: after in
  exists files,
    createZipFromImages atob results = Resolved files
    /\ createZipFromImages atob (before ++ after) = Resolved files
    /\ ("Error adding " +:+ name_text (BatchResult.fileName result) +:+ " to ZIP:",
        message) ∈ snd (createZipFromImages_run atob results)
    /\ (size files
        < length (filter (fun r => BatchResult.success r = true) results))%nat
    /\ (forall earlier other later url' binaryString,
          before ++ after = earlier ++ other :: later ->
          BatchResult.success other = true ->
          BatchResult.dataUrl other = Some url' ->
          url' <> "" ->
          atob (base64Data url') = Resolved binaryString ->
          (forall r, r ∈ later ->
             name_text (BatchResult.fileName r)
             <> name_text (BatchResult.fileName other)) ->
          files !! name_text (BatchResult.fileName other)
          = Some (bytes_of binaryString))
    /\ (forall name bytes,
          files !! name = Some bytes ->
          exists other url' binaryString,
            other ∈ before ++ after
            /\ BatchResult.success other = true
            /\ BatchResult.dataUrl other = Some url'
            /\ atob (base64Data url') = Resolved binaryString
            /\ name = name_text (BatchResult.fileName other)
            /\ bytes = bytes_of binaryString).
Proof.
  intros Hok Hurl Hne Hbad results.
  assert (Htruthy : truthy (Some url) = true) by (by destruct url).
  assert (Hentry : zip_entry atob result = None).
  { unfold zip_entry. rewrite Hok, Hurl, Htruthy. cbn. by rewrite Hbad. }
  assert (Hlog : zip_log atob result
                 = [("Error adding " +:+ name_text (BatchResult.fileName result)
                       +:+ " to ZIP:", message)]).
  { unfold zip_log. rewrite Hok, Hurl, Htruthy. cbn. by rewrite Hbad. }
  assert (Hsame : omap (zip_entry atob) results
                  = omap (zip_entry atob) (before ++ after)).
  { unfold results. rewrite !omap_app. cbn [omap list_omap]. by rewrite Hentry. }
  exists (fst (createZipFromImages_run atob results)).
  split; [reflexivity|]. split; [|split; [|split; [|split]]].
  - unfold createZipFromImages. by rewrite !zip_run_archive, Hsame.
  - rewrite zip_run_console. apply list_elem_of_join.
    exists (zip_log atob result). split; [rewrite Hlog; apply list_elem_of_here|].
    apply list_elem_of_fmap. exists result. split; [reflexivity|].
    unfold results. apply elem_of_app. right. apply list_elem_of_here.
  - rewrite zip_run_archive.
    eapply Nat.le_lt_trans; [apply foldl_add_entry_size|].
    rewrite map_size_empty, Hsame. cbn [Nat.add].
    eapply Nat.le_lt_trans; [apply zip_entries_at_most_successes|].
    unfold results. rewrite !filter_app, !length_app, filter_cons.
    rewrite decide_True by assumption. cbn [length]. lia.
  - intros earlier other later url' binaryString Hsplit Hok' Hurl' Hne' Hatob Hlast.
    rewrite zip_run_archive, Hsame, Hsplit, omap_app. cbn [omap list_omap].
    rewrite (zip_entry_decoded atob other url' binaryString Hok' Hurl' Hne' Hatob).
    apply foldl_add_entry_lookup_last.
    intros Hin. apply list_elem_of_fmap in Hin as ([name' bytes'] & Hname & Hin).
    cbn in Hname. subst name'.
    apply list_elem_of_omap in Hin as (r & Hr & Hentry').
    apply zip_entry_origin in Hentry' as (_ & Hname & _).
    exact (Hlast r Hr (eq_sym Hname)).
  - intros name bytes Hfile.
    rewrite zip_run_archive, Hsame in Hfile.
    apply foldl_add_entry_lookup_Some in Hfile as [Hfile|Hin];
      [by rewrite lookup_empty in Hfile|].
    apply list_elem_of_omap in Hin as (other & Hother & Hentry').
    apply zip_entry_origin in Hentry'
      as (Hok' & Hname & url' & binaryString & Hurl' & Hatob & Hbytes).
    by exists other, url', binaryString.
Qed.
End ArchiveClaims.

Lemma empty_report_gives_empty_archive_witness :
  createZipFromImages Base64.atob failed_report = Resolved ∅
  /\ snd (createZipFromImages_run Base64.atob failed_report) = []
  /\ handleDownloadZip Base64.atob Toy.fetch 0 failed_report
     = Alert "No successfully compressed images to download"
  /\ (forall message,
        Alert "No successfully compressed images to download"
        <> Alert ("Error creating download: " +:+ message)).
Proof.
  apply (empty_report_gives_empty_archive Base64.atob Toy.fetch 0 failed_report).
  constructor; [reflexivity | constructor].
Defined.

(** C7 fails as stated: for a report whose only entry failed,
    [createZipFromImages] resolves, with an empty archive; it rejects with
    no message at all. *)
Lemma empty_report_is_not_a_failure :
  BatchResult.success <$> failed_report = [false]
  /\ createZipFromImages Base64.atob failed_report = Resolved ∅
  /\ (forall message,
        createZipFromImages Base64.atob failed_report <> Rejected message).
Proof.
  split; [reflexivity|]. split; [reflexivity|]. intros message. discriminate.
Qed.

(** C8 fails as stated: [a.png] and [a.gif] both succeed as [a.jpg], and the
    archive holds a single file [a.jpg], with the bytes of the second. *)
Lemma same_name_entries_collapse :
  BatchResult.success <$> colliding_report = [true; true]
  /\ BatchResult.fileName <$> colliding_report = [Some "a.jpg"; Some "a.jpg"]
  /\ createZipFromImages Base64.atob colliding_report
     = Resolved {[ "a.jpg" := bytes_of "lossy:second" ]}
  /\ size ({[ "a.jpg" := bytes_of "lossy:second" ]} : archive) = 1%nat.
Proof. repeat split; vm_compute; reflexivity. Qed.

Lemma undecodable_entry_is_dropped_witness :
  exists files,
    createZipFromImages Base64.atob (colliding_report ++ undecodable_entry :: [])
      = Resolved files
    /\ createZipFromImages Base64.atob (colliding_report ++ []) = Resolved files
    /\ ("Error adding " +:+ name_text (BatchResult.fileName undecodable_entry)
          +:+ " to ZIP:",
        "The string to be decoded is not correctly encoded.")
       ∈ snd (createZipFromImages_run Base64.atob
                (colliding_report ++ undecodable_entry :: []))
    /\ (size files
        < length (filter (fun r => BatchResult.success r = true)
                    (colliding_report ++ undecodable_entry :: [])))%nat
    /\ (forall earlier other later url' binaryString,
          colliding_report ++ [] = earlier ++ other :: later ->
          BatchResult.success other = true ->
          BatchResult.dataUrl other = Some url' ->
          url' <> "" ->
          Base64.atob (base64Data url') = Resolved binaryString ->
          (forall r, r ∈ later ->
             name_text (BatchResult.fileName r)
             <> name_text (BatchResult.fileName other)) ->
          files !! name_text (BatchResult.fileName other)
          = Some (bytes_of binaryString))
    /\ (forall name bytes,
          files !! name = Some bytes ->
          exists other url' binaryString,
            other ∈ colliding_report ++ []
            /\ BatchResult.success other = true
            /\ BatchResult.dataUrl other = Some url'
            /\ Base64.atob (base64Data url') = Resolved binaryString
            /\ name = name_text (BatchResult.fileName other)
            /\ bytes = bytes_of binaryString).
Proof.
  apply (undecodable_entry_is_dropped Base64.atob colliding_report []
           undecodable_entry "data:image/jpeg;base64,@@@@"
           "The string to be decoded is not correctly encoded.");
    [reflexivity | reflexivity | discriminate | reflexivity].
Defined.

(** Evaluated on a report: the two colliding images and the undecodable
    entry give one file, one console line, and no failure. *)
Example undecodable_entry_run :
  createZipFromImages Base64.atob (colliding_report ++ [undecodable_entry])
  = Resolved {[ "a.jpg" := bytes_of "lossy:second" ]}
  /\ snd (createZipFromImages_run Base64.atob (colliding_report ++ [undecodable_entry]))
     = [("Error adding x.jpg to ZIP:",
         "The string to be decoded is not correctly encoded.")].
Proof. split; vm_compute; reflexivity. Qed.

(** The scenario of the specification: of three images the second is
    corrupt; the report has three entries, the second failed, and the
    archive has two files. *)
Example mixed_report_archive :
  BatchResult.success <$> mixed_report = [true; false; true]
  /\ createZipFromImages Base64.atob mixed_report
     = Resolved {[ "one.jpg" := bytes_of "lossy:first";
                   "three.jpg" := bytes_of "lossy:second" ]}.
Proof. split; vm_compute; reflexivity. Qed.

(** ** The encode step *)

Section EncodeFacts.
Context {num : Type} `{!JSNumber num}.
Variable Image : Type.
Variable img_width img_height : Image -> Z.
Variable loadImage : string -> option Image.
Variable toDataURL : Image -> Z -> Z -> string -> option num -> outcome string.

Local Abbreviation compress url options :=
  (compressImage Image img_width img_height loadImage toDataURL url options).

(** C9: with format PNG the quality is not passed to the encoder, so two
    configs that differ only in quality give the same encoded image (or
    the same error). *)
Theorem png_ignores_quality (imageDataUrl : string)
    (options : CompressionOptions num) (q1 q2 : option num) :
  format_or_default options = "image/png" ->
  output_bytes (compress imageDataUrl (with_quality q1 options))
  = output_bytes (compress imageDataUrl (with_quality q2 options)).
Proof.
  intros Hpng. unfold compressImage.
  change (format_or_default (with_quality q1 options))
    with (format_or_default options).
  change (format_or_default (with_quality q2 options))
    with (format_or_default options).
  change (planDimensions (img_width ?i) (img_height ?i) (with_quality q1 options))
    with (planDimensions (img_width i) (img_height i) options).
  rewrite Hpng. cbn [String.eqb Ascii.eqb Bool.eqb].
  destruct (loadImage imageDataUrl) as [img|]; [|reflexivity].
  change (planDimensions (img_width img) (img_height img) (with_quality q1 options))
    with (planDimensions (img_width img) (img_height img) options).
  change (planDimensions (img_width img) (img_height img) (with_quality q2 options))
    with (planDimensions (img_width img) (img_height img) options).
  destruct (planDimensions _ _ options) as [newWidth newHeight].
  destruct (toDataURL img newWidth newHeight "image/png" None); reflexivity.
Qed.
End EncodeFacts.

Lemma png_ignores_quality_witness :
  output_bytes
    (compressImage Toy.Image Toy.img_width Toy.img_height Toy.loadImage Toy.toDataURL
       "data:image/gif;base64,aGVsbG8="
       (with_quality (Some (1 # 10)%Q) (with_format (Some "image/png") (box 800 800 true))))
  = output_bytes
      (compressImage Toy.Image Toy.img_width Toy.img_height Toy.loadImage Toy.toDataURL
         "data:image/gif;base64,aGVsbG8="
         (with_quality (Some (9 # 10)%Q) (with_format (Some "image/png") (box 800 800 true)))).
Proof.
  apply (png_ignores_quality Toy.Image Toy.img_width Toy.img_height Toy.loadImage
           Toy.toDataURL). reflexivity.
Defined.

(** For the other formats the quality reaches the encoder. *)
Example jpeg_passes_quality :
  output_bytes
    (compressImage Toy.Image Toy.img_width Toy.img_height Toy.loadImage Toy.toDataURL
       "data:image/gif;base64,aGVsbG8=" (box 800 800 true : CompressionOptions Q))
  = Resolved "data:image/jpeg;base64,bG9zc3k6aGVsbG8="
  /\ output_bytes
       (compressImage Toy.Image Toy.img_width Toy.img_height Toy.loadImage Toy.toDataURL
          "data:image/gif;base64,aGVsbG8="
          (with_format (Some "image/png") (box 800 800 true : CompressionOptions Q)))
     = Resolved "data:image/png;base64,aGVsbG8=".
Proof. split; vm_compute; reflexivity. Qed.

(** ** More on the dimension planner *)

Lemma nearest_le_side (a w h r : Z) :
  0 < h <= w -> 0 < a ->
  2 * Z.abs (r * w - a * h) <= w ->
  r <= a.
Proof.
  intros Hhw Ha Hr.
  assert (a * h <= a * w) by nia.
  assert (2 * (r * w) <= 2 * (a * w) + w) by lia.
  nia.
Qed.

Lemma nearest_ge_side (b w h r : Z) :
  0 < h <= w -> 0 < b ->
  2 * Z.abs (r * h - b * w) <= h ->
  b <= r.
Proof.
  intros Hhw Hb Hr.
  assert (b * h <= b * w) by nia.
  assert (2 * (b * h) - h <= 2 * (r * h)) by lia.
  nia.
Qed.

Lemma nearest_le_other (a w h r : Z) :
  0 < w -> 0 < h -> 0 < a <= w ->
  2 * Z.abs (r * w - a * h) <= w ->
  r <= h.
Proof.
  intros Hw Hh Ha Hr.
  assert (a * h <= w * h) by nia.
  assert (2 * (r * w) <= 2 * (w * h) + w) by lia.
  nia.
Qed.

Section PlannerShape.
Context {num : Type} `{!JSNumber num}.
Variables w h : Z.
Hypothesis Hw : 0 < w.
Hypothesis Hh : 0 < h.
Hypothesis Hnear : rounds_to_nearest w h.

Lemma plan_keep_ratio_shape (options : CompressionOptions num) :
  maintainAspectRatio_or_default options = true ->
  0 < maxWidth_or_default options < 9999 ->
  0 < maxHeight_or_default options < 9999 ->
  let '(newWidth, newHeight) := planDimensions w h options in
  (newWidth <= w /\ newHeight <= h)
  /\ ((h < w -> newHeight <= newWidth) /\ (w <= h -> newWidth <= newHeight))
  /\ (maxWidth_or_default options < w \/ maxHeight_or_default options < h ->
      newWidth = maxWidth_or_default options
      \/ newHeight = maxHeight_or_default options).
Proof.
  intros Hkeep HW HH. unfold planDimensions. rewrite Hkeep.
  set (maxW := maxWidth_or_default options) in *.
  set (maxH := maxHeight_or_default options) in *.
  fold (aspectRatio_of w h).
  replace ((0 <? maxW) && (0 <? maxH) && (maxW <? 9999) && (maxH <? 9999))
    with true by (symmetry; rewrite !andb_true_iff, !Z.ltb_lt; lia).
  destruct ((maxW <? w) || (maxH <? h)) eqn:Hexceeds.
  2: { apply orb_false_iff in Hexceeds as [H1 H2]. apply Z.ltb_ge in H1, H2.
       repeat split; lia. }
  apply orb_true_iff in Hexceeds. rewrite !Z.ltb_lt in Hexceeds.
  destruct (Z.ltb_spec h w) as [Hor|Hor].
  - set (a := Z.min w maxW).
    assert (Ha : 0 < a < 9999) by (unfold a; lia).
    destruct (Hnear a Ha) as [D1 _].
    destruct (Hnear maxH HH) as [_ M2].
    set (r1 := Math_round (ndiv (of_int a) (aspectRatio_of w h))) in *.
    set (r2 := Math_round (nmul (of_int maxH) (aspectRatio_of w h))) in *.
    pose proof (nearest_le_other a w h r1 Hw Hh ltac:(unfold a; lia) D1) as Hr1h.
    pose proof (nearest_le_side a w h r1 ltac:(lia) ltac:(lia) D1) as Hr1a.
    destruct (Z.ltb_spec maxH r1) as [Hov|Hov].
    + pose proof (second_pass a maxH w h r1 r2 ltac:(lia) ltac:(lia) ltac:(lia)
                    D1 Hov M2) as [Hpos Hle].
      pose proof (nearest_ge_side maxH w h r2 ltac:(lia) ltac:(lia) M2).
      repeat split; unfold a in *; lia.
    + repeat split; try (unfold a in *; lia).
      intros _. destruct (Z.min_spec w maxW) as [[Hlt Hm]|[Hge Hm]].
      * (* the width was not clamped, so the height is the original one *)
        assert (r1 = h); [|lia].
        fold a in Hm. rewrite Hm in D1. nia.
      * left. exact Hm.
  - set (a := Z.min h maxH).
    assert (Ha : 0 < a < 9999) by (unfold a; lia).
    destruct (Hnear a Ha) as [_ M1].
    destruct (Hnear maxW HW) as [D2 _].
    set (r1 := Math_round (nmul (of_int a) (aspectRatio_of w h))) in *.
    set (r2 := Math_round (ndiv (of_int maxW) (aspectRatio_of w h))) in *.
    pose proof (nearest_le_other a h w r1 Hh Hw ltac:(unfold a; lia) M1) as Hr1w.
    pose proof (nearest_le_side a h w r1 ltac:(lia) ltac:(lia) M1) as Hr1a.
    destruct (Z.ltb_spec maxW r1) as [Hov|Hov].
    + pose proof (second_pass a maxW h w r1 r2 ltac:(lia) ltac:(lia) ltac:(lia)
                    M1 Hov D2) as [Hpos Hle].
      pose proof (nearest_ge_side maxW h w r2 ltac:(lia) ltac:(lia) D2).
      repeat split; unfold a in *; lia.
    + repeat split; try (unfold a in *; lia).
      intros _. destruct (Z.min_spec h maxH) as [[Hlt Hm]|[Hge Hm]].
      * assert (r1 = w); [|lia].
        fold a in Hm. rewrite Hm in M1. nia.
      * right. exact Hm.
Qed.
End PlannerShape.

Section PlannerMore.
Context {num : Type} `{!JSNumber num}.

(** In-bounds sizes pass through unchanged. *)
Lemma plan_in_bounds (w h : Z) (options : CompressionOptions num) :
  w <= maxWidth_or_default options ->
  h <= maxHeight_or_default options ->
  planDimensions w h options = (w, h).
Proof.
  intros Hw Hh. unfold planDimensions.
  destruct (_ && _ && _ && _); [|reflexivity].
  destruct (maintainAspectRatio_or_default options).
  - destruct (Z.ltb_spec (maxWidth_or_default options) w); [lia|].
    destruct (Z.ltb_spec (maxHeight_or_default options) h); [lia|].
    reflexivity.
  - f_equal; lia.
Qed.

Lemma plan_guard (options : CompressionOptions num) :
  let maxW := maxWidth_or_default options in
  let maxH := maxHeight_or_default options in
  (0 <? maxW) && (0 <? maxH) && (maxW <? 9999) && (maxH <? 9999) = true
  <-> 0 < maxW < 9999 /\ 0 < maxH < 9999.
Proof. cbv zeta. rewrite !andb_true_iff, !Z.ltb_lt. lia. Qed.

(** X5: a [maxWidth] or [maxHeight] that is zero or negative switches
    resizing off, like one of 9999 or more: the size is kept, whatever the
    other options and the arithmetic. *)
Theorem plan_keeps_size_for_nonpositive_bound (w h : Z)
    (options : CompressionOptions num) :
  maxWidth_or_default options <= 0 \/ maxHeight_or_default options <= 0 ->
  planDimensions w h options = (w, h).
Proof.
  intros Hoff. unfold planDimensions.
  destruct (Z.ltb_spec 0 (maxWidth_or_default options)); cbn [andb]; [|reflexivity].
  destruct (Z.ltb_spec 0 (maxHeight_or_default options)); cbn [andb]; [|reflexivity].
  lia.
Qed.

(** X1: the planner never enlarges a side: for positive original sizes and
    an arithmetic that rounds to nearest for the size, the planned width is
    at most the original width and the planned height at most the original
    height, for every config. *)
Theorem plan_never_enlarges (w h : Z) (options : CompressionOptions num) :
  0 < w -> 0 < h ->
  rounds_to_nearest w h ->
  let '(newWidth, newHeight) := planDimensions w h options in
  newWidth <= w /\ newHeight <= h.
Proof.
  intros Hw Hh Hnear.
  set (maxW := maxWidth_or_default options). set (maxH := maxHeight_or_default options).
  destruct (decide (0 < maxW < 9999 /\ 0 < maxH < 9999)) as [[HW HH]|Hoff].
  - destruct (maintainAspectRatio_or_default options) eqn:Hkeep.
    + pose proof (plan_keep_ratio_shape w h Hw Hh Hnear options Hkeep HW HH) as P.
      destruct (planDimensions w h options) as [newWidth newHeight]. tauto.
    + unfold planDimensions. rewrite Hkeep. fold maxW maxH.
      destruct (_ && _ && _ && _); lia.
  - unfold planDimensions. fold maxW maxH.
    replace ((0 <? maxW) && (0 <? maxH) && (maxW <? 9999) && (maxH <? 9999))
      with false
      by (symmetry; rewrite !andb_false_iff, !Z.ltb_ge; lia).
    lia.
Qed.

(** X2: planning is idempotent: the planned size, planned again with the
    same config, stays as it is. *)
Theorem plan_idempotent (w h : Z) (options : CompressionOptions num) :
  0 < w -> 0 < h ->
  rounds_to_nearest w h ->
  let '(newWidth, newHeight) := planDimensions w h options in
  planDimensions newWidth newHeight options = (newWidth, newHeight).
Proof.
  intros Hw Hh Hnear.
  set (maxW := maxWidth_or_default options). set (maxH := maxHeight_or_default options).
  destruct (decide (0 < maxW < 9999 /\ 0 < maxH < 9999)) as [[HW HH]|Hoff].
  - destruct (maintainAspectRatio_or_default options) eqn:Hkeep.
    + pose proof (plan_keep_ratio w h Hw Hh Hnear options Hkeep HW HH) as P.
      destruct (planDimensions w h options) as [newWidth newHeight].
      apply plan_in_bounds; tauto.
    + unfold planDimensions at 1. rewrite Hkeep. fold maxW maxH.
      replace ((0 <? maxW) && (0 <? maxH) && (maxW <? 9999) && (maxH <? 9999))
        with true by (symmetry; apply plan_guard; done).
      apply plan_in_bounds; fold maxW maxH; lia.
  - unfold planDimensions at 1. fold maxW maxH.
    replace ((0 <? maxW) && (0 <? maxH) && (maxW <? 9999) && (maxH <? 9999))
      with false
      by (symmetry; rewrite !andb_false_iff, !Z.ltb_ge; lia).
    unfold planDimensions. fold maxW maxH.
    replace ((0 <? maxW) && (0 <? maxH) && (maxW <? 9999) && (maxH <? 9999))
      with false
      by (symmetry; rewrite !andb_false_iff, !Z.ltb_ge; lia).
    reflexivity.
Qed.

(** X3: for a positive original size and an arithmetic that rounds to
    nearest for the size, with the aspect ratio maintained the orientation
    is kept: an image wider than long is planned at least as wide as long,
    and an image at least as long as wide is planned at least as long as
    wide. *)
Theorem plan_keeps_orientation (w h : Z) (options : CompressionOptions num) :
  0 < w -> 0 < h ->
  rounds_to_nearest w h ->
  maintainAspectRatio_or_default options = true ->
  let '(newWidth, newHeight) := planDimensions w h options in
  (h < w -> newHeight <= newWidth) /\ (w <= h -> newWidth <= newHeight).
Proof.
  intros Hw Hh Hnear Hkeep.
  set (maxW := maxWidth_or_default options). set (maxH := maxHeight_or_default options).
  destruct (decide (0 < maxW < 9999 /\ 0 < maxH < 9999)) as [[HW HH]|Hoff].
  - pose proof (plan_keep_ratio_shape w h Hw Hh Hnear options Hkeep HW HH) as P.
    destruct (planDimensions w h options) as [newWidth newHeight]. tauto.
  - unfold planDimensions. fold maxW maxH.
    replace ((0 <? maxW) && (0 <? maxH) && (maxW <? 9999) && (maxH <? 9999))
      with false
      by (symmetry; rewrite !andb_false_iff, !Z.ltb_ge; lia).
    lia.
Qed.

(** X4: for a positive original size and an arithmetic that rounds to
    nearest for the size, an image that is resized with its aspect ratio
    maintained fills the box along one axis: when the original exceeds
    [maxWidth] or [maxHeight] (both between 1 and 9998), the planned width
    is [maxWidth] or the planned height is [maxHeight]. *)
Theorem plan_fills_one_side (w h : Z) (options : CompressionOptions num) :
  0 < w -> 0 < h ->
  rounds_to_nearest w h ->
  maintainAspectRatio_or_default options = true ->
  0 < maxWidth_or_default options < 9999 ->
  0 < maxHeight_or_default options < 9999 ->
  maxWidth_or_default options < w \/ maxHeight_or_default options < h ->
  let '(newWidth, newHeight) := planDimensions w h options in
  newWidth = maxWidth_or_default options \/ newHeight = maxHeight_or_default options.
Proof.
  intros Hw Hh Hnear Hkeep HW HH Hexceeds.
  pose proof (plan_keep_ratio_shape w h Hw Hh Hnear options Hkeep HW HH) as P.
  destruct (planDimensions w h options) as [newWidth newHeight]. tauto.
Qed.
End PlannerMore.

Lemma plan_keeps_size_for_nonpositive_bound_witness :
  planDimensions 2000 1000 (box 0 600 true : CompressionOptions spec_float)
  = (2000, 1000).
Proof. apply plan_keeps_size_for_nonpositive_bound. left. vm_compute. discriminate. Defined.

Lemma plan_never_enlarges_witness :
  let '(newWidth, newHeight) :=
    planDimensions 1999 1501 (box 800 600 true : CompressionOptions Q) in
  newWidth <= 1999 /\ newHeight <= 1501.
Proof.
  apply (plan_never_enlarges 1999 1501 (box 800 600 true : CompressionOptions Q));
    first [apply exact_rounds_to_nearest | idtac]; reflexivity.
Defined.

Lemma plan_idempotent_witness :
  let '(newWidth, newHeight) :=
    planDimensions 1999 1501 (box 800 600 true : CompressionOptions Q) in
  planDimensions newWidth newHeight (box 800 600 true : CompressionOptions Q)
  = (newWidth, newHeight).
Proof.
  apply (plan_idempotent 1999 1501 (box 800 600 true : CompressionOptions Q));
    first [apply exact_rounds_to_nearest | idtac]; reflexivity.
Defined.

(** Binary64 rounds to nearest at the size 1999 by 1501, by evaluation. *)
Lemma binary64_rounds_to_nearest_sample :
  rounds_to_nearest (num := spec_float) 1999 1501.
Proof. apply rounds_to_nearestb_spec. vm_compute. reflexivity. Qed.

Lemma plan_keeps_orientation_witness :
  let '(newWidth, newHeight) :=
    planDimensions 1999 1501 (box 800 600 true : CompressionOptions spec_float) in
  (1501 < 1999 -> newHeight <= newWidth) /\ (1999 <= 1501 -> newWidth <= newHeight).
Proof.
  apply (plan_keeps_orientation 1999 1501
           (box 800 600 true : CompressionOptions spec_float));
    first [ exact binary64_rounds_to_nearest_sample | reflexivity ].
Defined.

Lemma plan_fills_one_side_witness :
  let '(newWidth, newHeight) :=
    planDimensions 1999 1501 (box 800 600 true : CompressionOptions spec_float) in
  newWidth = 800 \/ newHeight = 600.
Proof.
  apply (plan_fills_one_side 1999 1501
           (box 800 600 true : CompressionOptions spec_float));
    first [ exact binary64_rounds_to_nearest_sample
          | left; vm_compute; reflexivity
          | vm_compute; split; reflexivity
          | reflexivity ].
Defined.

(** ** File names *)

Lemma append_cons (c : ascii) (s t : string) :
  String c s +:+ t = String c (s +:+ t).
Proof. reflexivity. Qed.

Lemma includes_append (c : ascii) (s t : string) :
  includes c (s +:+ t) = includes c s || includes c t.
Proof.
  induction s as [|d s IH]; [reflexivity|].
  rewrite append_cons. cbn [includes]. rewrite IH. by rewrite orb_assoc.
Qed.

Lemma is_extension_tail_spec (s : string) :
  is_extension_tail s = true
  <-> s <> "" /\ includes "." s = false /\ includes "/" s = false.
Proof.
  induction s as [|c s IH].
  - cbn. split; [discriminate | intros [? _]; done].
  - cbn [is_extension_tail includes].
    destruct s as [|d s].
    + cbn. rewrite !orb_false_r, negb_true_iff, orb_false_iff.
      intuition congruence.
    + rewrite andb_true_iff, IH, negb_true_iff, !orb_false_iff.
      intuition congruence.
Qed.

Lemma strip_extension_without_dot (s : string) :
  includes "." s = false -> strip_extension s = s.
Proof.
  induction s as [|c s IH]; [reflexivity|].
  cbn. intros [Hc Hs]%orb_false_iff. rewrite Hc. cbn. by rewrite IH.
Qed.

Lemma strip_extension_last (stem ext : string) :
  is_extension_tail ext = true ->
  strip_extension (stem +:+ "." +:+ ext) = stem.
Proof.
  intros Hext. induction stem as [|c stem IH].
  - change ("" +:+ "." +:+ ext) with (String "." ext).
    cbn [strip_extension]. by rewrite Hext.
  - rewrite append_cons. cbn [strip_extension]. rewrite IH.
    assert (is_extension_tail (stem +:+ "." +:+ ext) = false) as ->.
    { apply not_true_is_false. rewrite is_extension_tail_spec.
      intros (_ & Hdot & _). rewrite includes_append in Hdot.
      apply orb_false_iff in Hdot as [_ Hdot].
      change ("." +:+ ext) with (String "." ext) in Hdot. cbn in Hdot. discriminate. }
    by rewrite andb_false_r.
Qed.

(** The decimal numeral of a number has no dot. *)
Lemma pretty_N_go_no_dot (x : N) :
  forall s, includes "." (pretty_N_go x s) = includes "." s.
Proof.
  induction (N.lt_wf_0 x) as [x _ IH]; intros s.
  assert (x = 0 \/ 0 < x)%N as [->|Hpos] by lia.
  - by rewrite pretty_N_go_0.
  - rewrite pretty_N_go_step by done. rewrite IH by (by apply N.div_lt).
    cbn. unfold pretty_N_char. by repeat case_match.
Qed.

Lemma pretty_nat_no_dot (n : nat) : includes "." (pretty n) = false.
Proof.
  unfold pretty, pretty_nat, pretty, pretty_N.
  case_decide; [reflexivity|]. by rewrite pretty_N_go_no_dot.
Qed.

Lemma string_length_append (s t : string) :
  String.length (s +:+ t) = (String.length s + String.length t)%nat.
Proof.
  induction s as [|c s IH]; [reflexivity|].
  rewrite append_cons. cbn. by rewrite IH.
Qed.

Lemma append_inj_l (p s t : string) : p +:+ s = p +:+ t -> s = t.
Proof.
  induction p as [|c p IH]; [done|]. rewrite !append_cons. intros [= H]. by apply IH.
Qed.

Lemma append_inj_r (s t p : string) : s +:+ p = t +:+ p -> s = t.
Proof.
  intros H.
  assert (Hlen : String.length s = String.length t).
  { apply (f_equal String.length) in H. rewrite !string_length_append in H. lia. }
  revert t H Hlen. induction s as [|c s IH]; intros [|d t] H Hlen;
    try done; cbn in Hlen; try lia.
  rewrite !append_cons in H. injection H as -> H. f_equal. apply IH; [done | lia].
Qed.

Section FileNames.
Context {num : Type} {File : Type}.
Implicit Types (image : ImageItem.t File) (options : CompressionOptions num).

(** X6: the extension of the source name is replaced: for an image named
    [stem.ext], where [ext] is not empty and has neither a dot nor a slash,
    the output name is [stem] followed by a dot and the extension of the
    configured format, whatever dots [stem] has. *)
Theorem file_name_replaces_extension (i : nat) image options (stem ext : string) :
  ImageItem.name image = Some (stem +:+ "." +:+ ext) ->
  ext <> "" -> includes "." ext = false -> includes "/" ext = false ->
  compressedFileName i image options = stem +:+ "." +:+ extension_of options.
Proof.
  intros Hname Hne Hdot Hslash. unfold compressedFileName. rewrite Hname.
  assert (or_else (Some (stem +:+ "." +:+ ext)) ("image_" +:+ pretty (i + 1)%nat)
          = stem +:+ "." +:+ ext) as ->.
  { destruct stem; reflexivity. }
  rewrite strip_extension_last; [reflexivity|].
  by apply is_extension_tail_spec.
Qed.

(** X7: a name without a dot is kept whole as the stem, and an image without
    a name (missing or empty) is named [image_] and its position, counted
    from 1. *)
Theorem file_name_without_extension (i : nat) image options :
  (forall name, ImageItem.name image = Some name -> name <> "" ->
     includes "." name = false ->
     compressedFileName i image options = name +:+ "." +:+ extension_of options)
  /\ (ImageItem.name image = None \/ ImageItem.name image = Some "" ->
      compressedFileName i image options
      = "image_" +:+ pretty (i + 1)%nat +:+ "." +:+ extension_of options).
Proof.
  split.
  - intros name Hname Hne Hdot. unfold compressedFileName. rewrite Hname.
    destruct name as [|c name]; [done|]. cbn [or_else].
    by rewrite strip_extension_without_dot.
  - intros Hname. unfold compressedFileName.
    assert (or_else (ImageItem.name image) ("image_" +:+ pretty (i + 1)%nat)
            = "image_" +:+ pretty (i + 1)%nat) as ->.
    { by destruct Hname as [-> | ->]. }
    rewrite strip_extension_without_dot; [reflexivity|].
    rewrite includes_append, pretty_nat_no_dot. reflexivity.
Qed.

(** X8: images without a name get distinct output names at distinct
    positions, so they never replace one another in the archive. *)
Theorem unnamed_images_get_distinct_names (i j : nat) (image1 image2 : ImageItem.t File)
    options :
  ImageItem.name image1 = None \/ ImageItem.name image1 = Some "" ->
  ImageItem.name image2 = None \/ ImageItem.name image2 = Some "" ->
  i <> j ->
  compressedFileName i image1 options <> compressedFileName j image2 options.
Proof.
  intros H1 H2 Hij.
  destruct (file_name_without_extension i image1 options) as [_ ->]; [|done].
  destruct (file_name_without_extension j image2 options) as [_ ->]; [|done].
  intros E. apply append_inj_l in E.
  apply append_inj_r in E.
  apply (inj pretty) in E. lia.
Qed.
End FileNames.

Lemma file_name_replaces_extension_witness :
  compressedFileName 0 (Toy.image "holiday.2024.png" "data:,")
    (box 800 800 true : CompressionOptions Q)
  = "holiday.2024" +:+ "." +:+ extension_of (box 800 800 true : CompressionOptions Q).
Proof.
  apply (file_name_replaces_extension 0 (Toy.image "holiday.2024.png" "data:,")
           (box 800 800 true : CompressionOptions Q) "holiday.2024" "png");
    [reflexivity | discriminate | reflexivity | reflexivity].
Defined.

Lemma unnamed_images_get_distinct_names_witness :
  compressedFileName 0
    {| ImageItem.file := None (A := unit); ImageItem.dataUrl := None;
       ImageItem.name := None; ImageItem.size := None |}
    (box 800 800 true : CompressionOptions Q)
  <> compressedFileName 1
       {| ImageItem.file := None (A := unit); ImageItem.dataUrl := None;
          ImageItem.name := Some ""; ImageItem.size := None |}
       (box 800 800 true : CompressionOptions Q).
Proof.
  apply unnamed_images_get_distinct_names;
    [by left | by right | discriminate].
Defined.

(** ** More on the batch loop *)

Section BatchMore.
Context {num : Type} {File : Type}.
Variable compressImage :
  imageInput File -> CompressionOptions num -> outcome (CompressionResult.t num).
Variable compressionOptions : CompressionOptions num.

(** X9: every entry of the report is of one of two shapes: a success, with
    a file name, the stats, the encoded image of the stats as data URL, an
    original size and no error; or a failure, with none of these and an
    error message. *)
Theorem batch_entries_have_two_shapes
    (onProgress : option (nat -> nat -> option string))
    (images : list (ImageItem.t File)) (entry : BatchResult.t num) :
  entry ∈ processBatchImages compressImage onProgress images compressionOptions ->
  (BatchResult.success entry = true
   /\ is_Some (BatchResult.fileName entry)
   /\ is_Some (BatchResult.stats entry)
   /\ BatchResult.dataUrl entry
      = CompressionResult.base64 <$> BatchResult.stats entry
   /\ is_Some (BatchResult.originalSize entry)
   /\ BatchResult.error entry = None)
  \/ (BatchResult.success entry = false
      /\ BatchResult.fileName entry = None
      /\ BatchResult.stats entry = None
      /\ BatchResult.dataUrl entry = None
      /\ BatchResult.originalSize entry = None
      /\ is_Some (BatchResult.error entry)).
Proof.
  rewrite batch_results. intros Hin.
  apply elem_of_lookup_imap in Hin as (i & image & -> & _).
  unfold process_item.
  destruct (try_item _ _ _ _ _ _) as [[result|message] calls]; cbn.
  - left. repeat split; eauto.
  - right. repeat split; eauto.
Qed.

(** X10: a callback that never throws does not change the report: the
    entries are those of a run without callback. *)
Theorem quiet_callback_keeps_report (callback : nat -> nat -> option string)
    (images : list (ImageItem.t File)) :
  (forall current total, callback current total = None) ->
  processBatchImages compressImage (Some callback) images compressionOptions
  = processBatchImages compressImage None images compressionOptions.
Proof.
  intros Hquiet. rewrite !batch_results. apply imap_ext. intros i image _.
  unfold process_item, try_item. rewrite Hquiet.
  by destruct (compressImage _ _).
Qed.

Lemma turn_compress_calls (onProgress : option (nat -> nat -> option string))
    (total i : nat) (image : ImageItem.t File) :
  compress_calls
    (snd (process_item compressImage onProgress total i image compressionOptions))
  = if callback_throws onProgress total i then [] else [i].
Proof.
  unfold process_item, try_item, callback_throws.
  destruct onProgress as [callback|].
  - destruct (callback _ _); [reflexivity|].
    by destruct (compressImage _ _).
  - by destruct (compressImage _ _).
Qed.

Lemma join_imap_filter {A : Type} (P : nat -> bool) (l : list A) :
  forall s,
    mjoin (imap (fun i (_ : A) => if P (s + i)%nat then [] else [(s + i)%nat]) l)
    = filter (fun i => P i = false) (seq s (length l)).
Proof.
  induction l as [|x l IH]; intros s; [reflexivity|].
  rewrite imap_cons. cbn [length seq]. rewrite filter_cons.
  change (mjoin (?a :: ?b)) with (a ++ mjoin b).
  rewrite Nat.add_0_r.
  assert (Hrest :
    mjoin (imap ((fun i (_ : A) => if P (s + i)%nat then [] else [(s + i)%nat]) ∘ S) l)
    = filter (fun i => P i = false) (seq (S s) (length l))).
  { rewrite <- IH. f_equal. apply imap_ext. intros i y _. cbn.
    by replace (s + S i)%nat with (S s + i)%nat by lia. }
  rewrite Hrest. destruct (P s) eqn:E.
  - by rewrite decide_False by congruence.
  - by rewrite decide_True by done.
Qed.

(** X11: [compressImage] is called at most once per image, in the order of
    the images, and exactly for the images whose progress call did not
    throw; without a callback, for every image. *)
Theorem compress_called_once_in_order
    (onProgress : option (nat -> nat -> option string))
    (images : list (ImageItem.t File)) :
  compress_calls
    (snd (processBatchImages_run compressImage onProgress images compressionOptions))
  = filter (fun i => callback_throws onProgress (length images) i = false)
           (seq 0 (length images)).
Proof.
  rewrite batch_trace. unfold compress_calls at 1. rewrite omap_join, fmap_imap.
  rewrite <- (join_imap_filter (callback_throws onProgress (length images)) images 0).
  f_equal. apply imap_ext. intros i image _. cbn. apply turn_compress_calls.
Qed.
End BatchMore.

Lemma batch_entries_have_two_shapes_witness :
  let entry : BatchResult.t Q :=
    failure_entry (Toy.image "b.png" "data:image/png;base64,a") "Failed to load image" in
  (BatchResult.success entry = true
   /\ is_Some (BatchResult.fileName entry)
   /\ is_Some (BatchResult.stats entry)
   /\ BatchResult.dataUrl entry
      = CompressionResult.base64 <$> BatchResult.stats entry
   /\ is_Some (BatchResult.originalSize entry)
   /\ BatchResult.error entry = None)
  \/ (BatchResult.success entry = false
      /\ BatchResult.fileName entry = None
      /\ BatchResult.stats entry = None
      /\ BatchResult.dataUrl entry = None
      /\ BatchResult.originalSize entry = None
      /\ is_Some (BatchResult.error entry)).
Proof.
  apply (batch_entries_have_two_shapes Toy.compressImage (box 800 800 true) None
           [Toy.image "b.png" "data:image/png;base64,a"]).
  vm_compute. apply list_elem_of_here.
Defined.

Lemma quiet_callback_keeps_report_witness :
  processBatchImages (num := Q) Toy.compressImage (Some (fun _ _ => None))
    [Toy.image "a.png" "data:image/png;base64,Zmlyc3Q=";
     Toy.image "b.png" "data:image/png;base64,a"] (box 800 800 true)
  = processBatchImages Toy.compressImage None
      [Toy.image "a.png" "data:image/png;base64,Zmlyc3Q=";
       Toy.image "b.png" "data:image/png;base64,a"] (box 800 800 true).
Proof. by apply quiet_callback_keeps_report. Defined.

(** ** More on the archive *)

(** The archive as a map read off the list of calls of [zip.file], the
    last call first. *)
Lemma foldl_add_entry_list_to_map (entries : list (string * list N)) :
  foldl add_entry ∅ entries = list_to_map (reverse entries).
Proof.
  induction entries as [|[name bytes] entries IH] using rev_ind; [reflexivity|].
  rewrite foldl_snoc, reverse_snoc, list_to_map_cons, IH. reflexivity.
Qed.

Section ArchiveMore.
Context {num : Type}.
Variable atob : string -> outcome string.
Implicit Types (results : list (BatchResult.t num)).

Lemma zip_entries_of_successes results :
  omap (zip_entry atob) (filter (fun r => BatchResult.success r = true) results)
  = omap (zip_entry atob) results.
Proof.
  induction results as [|r results IH]; [reflexivity|].
  rewrite filter_cons. cbn [omap list_omap].
  destruct (zip_entry atob r) as [entry|] eqn:E.
  - rewrite decide_True by (by eapply zip_entry_success).
    cbn [omap list_omap]. by rewrite E, IH.
  - case_decide; [|done]. cbn [omap list_omap]. by rewrite E, IH.
Qed.

Lemma zip_log_of_successes results :
  mjoin (zip_log atob <$> filter (fun r => BatchResult.success r = true) results)
  = mjoin (zip_log atob <$> results).
Proof.
  induction results as [|r results IH]; [reflexivity|].
  rewrite filter_cons, fmap_cons.
  change (mjoin (?a :: ?b)) with (a ++ mjoin b).
  case_decide as Hok.
  - rewrite fmap_cons. change (mjoin (?a :: ?b)) with (a ++ mjoin b). by rewrite IH.
  - apply not_true_is_false in Hok.
    assert (zip_log atob r = []) as -> by (unfold zip_log; by rewrite Hok).
    by rewrite IH.
Qed.

(** X12: the archive is built from the successful entries only: handing over
    the whole report, as the application does, gives the archive and the
    console lines of the report cut down to its successes. *)
Theorem zip_ignores_failed_entries results :
  createZipFromImages_run atob results
  = createZipFromImages_run atob
      (filter (fun r => BatchResult.success r = true) results).
Proof.
  unfold createZipFromImages_run. rewrite !zip_run_unfold.
  by rewrite zip_entries_of_successes, zip_log_of_successes.
Qed.

(** X13: when the entries added have distinct names, the order of the
    report does not matter: any rearrangement gives the same archive, and
    the archive has one file for each entry added. *)
Theorem zip_order_irrelevant_for_distinct_names results results' :
  NoDup (omap (zip_entry atob) results).*1 ->
  results ≡ₚ results' ->
  createZipFromImages atob results' = createZipFromImages atob results
  /\ size (fst (createZipFromImages_run atob results))
     = length (omap (zip_entry atob) results).
Proof.
  intros Hnames Hperm. unfold createZipFromImages.
  rewrite !zip_run_archive, !foldl_add_entry_list_to_map.
  assert (Hrev : NoDup (reverse (omap (zip_entry atob) results)).*1).
  { by rewrite fmap_reverse, reverse_Permutation. }
  split.
  - f_equal. symmetry. apply list_to_map_proper; [exact Hrev|].
    rewrite !reverse_Permutation. by rewrite Hperm.
  - rewrite map_size_list_to_map by exact Hrev. by rewrite length_reverse.
Qed.

(** X14: archiving two reports one after the other: the archive of
    [results1 ++ results2] is the archive of [results2] completed by the
    files of [results1] under other names. *)
Theorem zip_of_concatenation results1 results2 :
  fst (createZipFromImages_run atob (results1 ++ results2))
  = fst (createZipFromImages_run atob results2)
    ∪ fst (createZipFromImages_run atob results1).
Proof.
  rewrite !zip_run_archive, !foldl_add_entry_list_to_map.
  by rewrite omap_app, reverse_app, list_to_map_app.
Qed.

(** X15: every file of the archive comes from the report: it is stored
    under the file name of a successful entry and holds the bytes [atob]
    decoded from the payload of that entry's data URL. *)
Theorem archive_files_come_from_report results (name : string) (bytes : list N) :
  fst (createZipFromImages_run atob results) !! name = Some bytes ->
  exists result url binaryString,
    result ∈ results
    /\ BatchResult.success result = true
    /\ name = name_text (BatchResult.fileName result)
    /\ BatchResult.dataUrl result = Some url
    /\ atob (base64Data url) = Resolved binaryString
    /\ bytes = bytes_of binaryString.
Proof.
  rewrite zip_run_archive, foldl_add_entry_list_to_map. intros Hfile.
  apply elem_of_list_to_map_2 in Hfile. rewrite elem_of_reverse in Hfile.
  apply list_elem_of_omap in Hfile as (result & Hin & Hentry).
  unfold zip_entry in Hentry.
  destruct (BatchResult.success result) eqn:Hok; [|discriminate].
  destruct (BatchResult.dataUrl result) as [url|] eqn:Hurl; [|discriminate].
  cbn in Hentry. destruct url as [|c url]; [discriminate|]. cbn in Hentry.
  destruct (atob _) as [binaryString|] eqn:Hatob; [|discriminate].
  injection Hentry as <- <-.
  exists result, (String c url), binaryString. repeat split; done.
Qed.

End ArchiveMore.

Lemma zip_order_irrelevant_for_distinct_names_witness :
  createZipFromImages Base64.atob (reverse mixed_report)
  = createZipFromImages Base64.atob mixed_report
  /\ size (fst (createZipFromImages_run Base64.atob mixed_report))
     = length (omap (zip_entry Base64.atob) mixed_report).
Proof.
  apply zip_order_irrelevant_for_distinct_names.
  - apply (bool_decide_unpack _). vm_compute. reflexivity.
  - symmetry. apply reverse_Permutation.
Defined.

Lemma archive_files_come_from_report_witness :
  exists result url binaryString,
    result ∈ colliding_report
    /\ BatchResult.success result = true
    /\ "a.jpg" = name_text (BatchResult.fileName result)
    /\ BatchResult.dataUrl result = Some url
    /\ Base64.atob (base64Data url) = Resolved binaryString
    /\ bytes_of "lossy:second" = bytes_of binaryString.
Proof.
  apply (archive_files_come_from_report Base64.atob colliding_report).
  vm_compute. reflexivity.
Defined.

(** ** The download button *)

Section DownloadMore.
Context {num : Type}.
Variable atob : string -> outcome string.
Variable fetch : option string -> outcome (list N).
Variable now : Z.
Implicit Types (results : list (BatchResult.t num)).

Lemma no_success_iff results :
  filter (fun r => BatchResult.success r = true) results = []
  <-> Forall (fun r => BatchResult.success r = false) results.
Proof.
  induction results as [|r results IH]; [by split; constructor|].
  rewrite filter_cons, Forall_cons. case_decide as Hok.
  - split; [discriminate|]. intros [Hfailed _]. congruence.
  - rewrite IH. apply not_true_is_false in Hok. tauto.
Qed.

(** X17: the button answers "No successfully compressed images to
    download" exactly when no entry of the report is a success. *)
Theorem download_alerts_nothing_iff_no_success results :
  handleDownloadZip atob fetch now results
    = Alert "No successfully compressed images to download"
  <-> Forall (fun r => BatchResult.success r = false) results.
Proof.
  rewrite <- no_success_iff. unfold handleDownloadZip, createZipFromImages.
  destruct (filter _ results) as [|first [|second rest]].
  - done.
  - split; [|discriminate]. destruct (fetch _); discriminate.
  - split; discriminate.
Qed.

(** X18: with two or more successes the button always downloads an archive
    of the whole report, named [compressed_images_] and the time, also when
    no entry could be decoded and the archive is empty; a single success is
    never put into an archive. *)
Theorem download_builds_archive_iff_several results :
  (2 <= length (filter (fun r => BatchResult.success r = true) results))%nat
  <-> handleDownloadZip atob fetch now results
      = Download (ArchiveBlob (fst (createZipFromImages_run atob results)))
                 ("compressed_images_" +:+ pretty now +:+ ".zip").
Proof.
  unfold handleDownloadZip, createZipFromImages.
  destruct (filter _ results) as [|first [|second rest]]; cbn [length].
  - split; [lia | discriminate].
  - split; [lia|]. destruct (fetch _); discriminate.
  - split; [done | lia].
Qed.
End DownloadMore.

(** ** The list of selected images *)

Lemma omap_id_cons {A : Type} (x : option A) (l : list (option A)) :
  omap id (x :: l) = match x with Some y => y :: omap id l | None => omap id l end.
Proof. reflexivity. Qed.

Lemma filter_by_index_delete {A : Type} (l : list A) :
  forall index s,
    omap id (imap (fun i x => if negb (s + i =? s + index)%nat then Some x else None) l)
    = delete index l.
Proof.
  induction l as [|x l IH]; intros index s; [by destruct index|].
  rewrite imap_cons, omap_id_cons, Nat.add_0_r.
  destruct index as [|index].
  - rewrite Nat.add_0_r, Nat.eqb_refl. cbn [negb].
    change (delete 0%nat (x :: l)) with l.
    transitivity (omap id (imap (fun (_ : nat) (x : A) => Some x) l)).
    + f_equal. apply imap_ext. intros i y _. cbn.
      by replace (s + S i =? s)%nat with false by (symmetry; apply Nat.eqb_neq; lia).
    + clear. induction l as [|y l IH]; [reflexivity|].
      rewrite imap_cons, omap_id_cons. f_equal. exact IH.
  - replace (s =? s + S index)%nat with false by (symmetry; apply Nat.eqb_neq; lia).
    cbn [negb]. change (delete (S index) (x :: l)) with (x :: delete index l).
    f_equal. rewrite <- (IH index (S s)). f_equal. apply imap_ext. intros i y _. cbn.
    by replace (s + S i)%nat with (S (s + i)) by lia;
       replace (s + S index)%nat with (S (s + index)) by lia.
Qed.

(** X19: removing an image takes out exactly the image at the index and
    keeps the others in order; an index past the end changes nothing; the
    preview then shows the first image left, or nothing when none is. *)
Theorem remove_image_deletes_at_index {File : Type}
    (selectedImages : list (ImageItem.t File)) (index : nat) :
  let '(newImages, selectedImage) := handleRemoveImage selectedImages index in
  newImages = take index selectedImages ++ drop (S index) selectedImages
  /\ (length selectedImages <= index -> newImages = selectedImages)%nat
  /\ (index < length selectedImages ->
      length newImages = (length selectedImages - 1)%nat)%nat
  /\ selectedImage = head newImages ≫= ImageItem.dataUrl.
Proof.
  unfold handleRemoveImage, filter_by_index.
  pose proof (filter_by_index_delete selectedImages index 0) as E.
  cbn [Nat.add] in E. rewrite E. clear E.
  split; [apply delete_take_drop|]. split; [|split].
  - intros Hpast. rewrite delete_take_drop, take_ge, drop_ge by lia.
    apply app_nil_r.
  - intros Hin. rewrite length_delete; [reflexivity|]. by apply lookup_lt_is_Some.
  - by destruct (delete index selectedImages).
Qed.

(** ** The presets and the settings panel *)

(** X20: a preset is recognised again: for each of the five presets, the
    panel opened on the options the preset button hands over, whatever
    [maintainAspectRatio] and [preserveDimensions] have become since, shows
    the preset's name as active. *)
Theorem preset_is_recognised (name : string) (preset : CompressionOptions Q)
    (keep flag : option bool) :
  (name, preset) ∈ COMPRESSION_PRESETS ->
  initial_activePreset (handlePresetChange preset) = name
  /\ initial_activePreset
       (with_maintainAspectRatio keep (with_preserveDimensions flag preset)) = name.
Proof.
  intros Hin. unfold COMPRESSION_PRESETS in Hin.
  repeat (apply elem_of_cons in Hin as [[= -> ->]|Hin]; [split; reflexivity|]).
  by apply elem_of_nil in Hin.
Qed.

Lemma preset_is_recognised_witness :
  initial_activePreset
    (handlePresetChange (with_quality (Some (7 # 10)%Q) (box 800 800 true))) = "medium"
  /\ initial_activePreset
       (with_maintainAspectRatio (Some false)
          (with_preserveDimensions (Some true)
             (with_quality (Some (7 # 10)%Q) (box 800 800 true)))) = "medium".
Proof.
  apply (preset_is_recognised "medium"
           (with_quality (Some (7 # 10)%Q) (box 800 800 true)) (Some false) (Some true)).
  unfold COMPRESSION_PRESETS. apply list_elem_of_further, list_elem_of_here.
Defined.

(** ** Data URLs *)

Lemma split_on_without (sep : ascii) (s : string) :
  includes sep s = false -> split_on sep s = [s].
Proof.
  induction s as [|c s IH]; [reflexivity|].
  cbn. intros [Hc Hs]%orb_false_iff. by rewrite Hc, IH.
Qed.

Lemma split_on_first (sep : ascii) (header rest : string) :
  includes sep header = false ->
  split_on sep (header +:+ String sep rest) = header :: split_on sep rest.
Proof.
  induction header as [|c header IH].
  - intros _. change ("" +:+ String sep rest) with (String sep rest).
    cbn. by rewrite Ascii.eqb_refl.
  - cbn [includes]. intros [Hc Hh]%orb_false_iff.
    rewrite append_cons. cbn [split_on]. by rewrite Hc, IH.
Qed.

Lemma includes_first (sep : ascii) (header rest : string) :
  includes sep (header +:+ String sep rest) = true.
Proof.
  rewrite includes_append. cbn. rewrite Ascii.eqb_refl. by rewrite orb_true_r.
Qed.

(** X22: what is decoded of a data URL is the text between its first and
    its second comma: the whole payload when the payload has no comma, and
    the text "undefined" when the data URL has no comma at all. *)
Theorem base64Data_is_second_piece (header payload rest : string) :
  includes "," header = false ->
  includes "," payload = false ->
  base64Data (header +:+ "," +:+ payload) = payload
  /\ base64Data (header +:+ "," +:+ payload +:+ "," +:+ rest) = payload
  /\ base64Data header = "undefined".
Proof.
  intros Hheader Hpayload. unfold base64Data.
  change ("," +:+ payload) with (String "," payload).
  change ("," +:+ payload +:+ "," +:+ rest)
    with (String "," (payload +:+ String "," rest)).
  rewrite !split_on_first by assumption.
  rewrite (split_on_without "," payload), (split_on_without "," header) by assumption.
  repeat split.
Qed.

Lemma base64Data_is_second_piece_witness :
  base64Data ("data:image/png;base64" +:+ "," +:+ "aGVsbG8=") = "aGVsbG8="
  /\ base64Data ("data:image/png;base64" +:+ "," +:+ "aGVsbG8=" +:+ "," +:+ "x")
     = "aGVsbG8="
  /\ base64Data "data:image/png;base64" = "undefined".
Proof. apply base64Data_is_second_piece; reflexivity. Defined.

Section SizeFacts.
Context {num : Type} `{!JSNumber num}.

(** X23: the size estimate of a data URL counts the payload only: the
    header before the comma does not enter it. *)
Theorem getBase64Size_ignores_header (header payload : string) :
  includes "," header = false ->
  includes "," payload = false ->
  getBase64Size (header +:+ "," +:+ payload) = getBase64Size payload.
Proof.
  intros Hheader Hpayload. unfold getBase64Size.
  change ("," +:+ payload) with (String "," payload).
  rewrite includes_first, Hpayload, split_on_first, split_on_without by assumption.
  reflexivity.
Qed.
End SizeFacts.

Lemma getBase64Size_ignores_header_witness :
  getBase64Size (num := spec_float) ("data:image/png;base64" +:+ "," +:+ "aGVsbG8=")
  = getBase64Size "aGVsbG8=".
Proof. apply getBase64Size_ignores_header; reflexivity. Defined.

(** ** More on compressImage *)

Section CompressMore.
Context {num : Type} `{!JSNumber num}.
Variable Image : Type.
Variable img_width img_height : Image -> Z.
Variable loadImage : string -> option Image.
Variable toDataURL : Image -> Z -> Z -> string -> option num -> outcome string.

Local Abbreviation compress url options :=
  (compressImage Image img_width img_height loadImage toDataURL url options).

(** X24: with format PNG the quality only shows in the [quality] field of
    the result: for two qualities, both calls fail with the same message,
    or both succeed and the results are equal but for that field, which
    reports the configured quality although the encoder never saw it. *)
Theorem png_results_differ_in_quality_field_only (imageDataUrl : string)
    (options : CompressionOptions num) (q1 q2 : option num) :
  format_or_default options = "image/png" ->
  match compress imageDataUrl (with_quality q1 options),
        compress imageDataUrl (with_quality q2 options) with
  | Resolved result1, Resolved result2 =>
      result2 = with_result_quality (quality_or_default (with_quality q2 options)) result1
      /\ CompressionResult.quality result1 = quality_or_default (with_quality q1 options)
  | Rejected message1, Rejected message2 => message1 = message2
  | _, _ => False
  end.
Proof.
  intros Hpng. unfold compressImage.
  change (format_or_default (with_quality q1 options))
    with (format_or_default options).
  change (format_or_default (with_quality q2 options))
    with (format_or_default options).
  rewrite Hpng. cbn [String.eqb Ascii.eqb Bool.eqb].
  destruct (loadImage imageDataUrl) as [img|]; [|reflexivity].
  change (planDimensions (img_width img) (img_height img) (with_quality q1 options))
    with (planDimensions (img_width img) (img_height img) options).
  change (planDimensions (img_width img) (img_height img) (with_quality q2 options))
    with (planDimensions (img_width img) (img_height img) options).
  destruct (planDimensions _ _ options) as [newWidth newHeight].
  destruct (toDataURL img newWidth newHeight "image/png" None); [|reflexivity].
  split; reflexivity.
Qed.

(** X25: the stats of a compressed image: the reported width and height
    are the planned size of the reported original size, and for a positive
    original size and an arithmetic that rounds to nearest they are never
    larger than the original. *)
Theorem compressImage_never_enlarges (imageDataUrl : string)
    (options : CompressionOptions num) (result : CompressionResult.t num) :
  compress imageDataUrl options = Resolved result ->
  (CompressionResult.width result, CompressionResult.height result)
  = planDimensions (CompressionResult.originalWidth result)
                   (CompressionResult.originalHeight result) options
  /\ (0 < CompressionResult.originalWidth result ->
      0 < CompressionResult.originalHeight result ->
      rounds_to_nearest (CompressionResult.originalWidth result)
                        (CompressionResult.originalHeight result) ->
      CompressionResult.width result <= CompressionResult.originalWidth result
      /\ CompressionResult.height result <= CompressionResult.originalHeight result).
Proof.
  unfold compressImage.
  destruct (loadImage imageDataUrl) as [img|]; [|discriminate].
  destruct (planDimensions (img_width img) (img_height img) options)
    as [newWidth newHeight] eqn:Hplan.
  destruct (if String.eqb _ _ then _ else _) as [encoded|]; [|discriminate].
  intros [= <-]. cbn. split; [by rewrite Hplan|].
  intros Hw Hh Hnear.
  pose proof (plan_never_enlarges (img_width img) (img_height img) options
                Hw Hh Hnear) as P.
  by rewrite Hplan in P.
Qed.

End CompressMore.

Lemma compressImage_never_enlarges_witness :
  (CompressionResult.width toy_result, CompressionResult.height toy_result)
  = planDimensions (CompressionResult.originalWidth toy_result)
                   (CompressionResult.originalHeight toy_result)
                   (box 800 800 true : CompressionOptions Q)
  /\ (0 < CompressionResult.originalWidth toy_result ->
      0 < CompressionResult.originalHeight toy_result ->
      rounds_to_nearest (num := Q) (CompressionResult.originalWidth toy_result)
                        (CompressionResult.originalHeight toy_result) ->
      CompressionResult.width toy_result <= CompressionResult.originalWidth toy_result
      /\ CompressionResult.height toy_result
         <= CompressionResult.originalHeight toy_result).
Proof.
  apply (compressImage_never_enlarges (num := Q) Toy.Image Toy.img_width
           Toy.img_height Toy.loadImage Toy.toDataURL
           "data:image/gif;base64,aGVsbG8=" (box 800 800 true) toy_result).
  vm_compute. reflexivity.
Defined.

Lemma png_results_differ_in_quality_field_only_witness :
  match compressImage Toy.Image Toy.img_width Toy.img_height Toy.loadImage
          Toy.toDataURL "data:image/gif;base64,aGVsbG8="
          (with_quality (Some (1 # 10)%Q)
             (with_format (Some "image/png") (box 800 800 true))),
        compressImage Toy.Image Toy.img_width Toy.img_height Toy.loadImage
          Toy.toDataURL "data:image/gif;base64,aGVsbG8="
          (with_quality (Some (9 # 10)%Q)
             (with_format (Some "image/png") (box 800 800 true))) with
  | Resolved result1, Resolved result2 =>
      result2 = with_result_quality
                  (quality_or_default
                     (with_quality (Some (9 # 10)%Q)
                        (with_format (Some "image/png") (box 800 800 true)))) result1
      /\ CompressionResult.quality result1
         = quality_or_default
             (with_quality (Some (1 # 10)%Q)
                (with_format (Some "image/png") (box 800 800 true)))
  | Rejected message1, Rejected message2 => message1 = message2
  | _, _ => False
  end.
Proof.
  apply (png_results_differ_in_quality_field_only Toy.Image Toy.img_width
           Toy.img_height Toy.loadImage Toy.toDataURL). reflexivity.
Defined.

(** ** The totals of the application *)

Section Totals.
Context {num : Type} {File : Type}.
Variable compressImage :
  imageInput File -> CompressionOptions num -> outcome (CompressionResult.t num).
Variable onProgress : option (nat -> nat -> option string).
Variable compressionOptions : CompressionOptions num.

(** X21: on a report of the batch loop the totals count every success:
    the total compressed size is the sum over all successful entries (the
    test [r.success && r.stats] drops none of them), the successes counted
    and the failures add up to the number of images, and the count reaches
    the number of images exactly when every entry is a success. *)
Theorem totals_count_every_success (images : list (ImageItem.t File)) :
  let report := processBatchImages compressImage onProgress images compressionOptions in
  getTotalCompressedSize report
  = foldl (fun sum r =>
             sum + match BatchResult.stats r with
                   | Some stats => CompressionResult.compressedSize stats
                   | None => 0
                   end)
          0 (filter (fun r => BatchResult.success r = true) report)
  /\ (getSuccessCount report
      + length (filter (fun r => BatchResult.success r = false) report))%nat
     = length images
  /\ (getSuccessCount report = length images
      <-> Forall (fun r => BatchResult.success r = true) report).
Proof.
  cbv zeta.
  set (report := processBatchImages compressImage onProgress images compressionOptions).
  assert (Hshape : Forall (fun r => BatchResult.success r = true ->
                                    is_Some (BatchResult.stats r)) report).
  { apply Forall_forall. intros r Hin Hok.
    destruct (batch_entries_have_two_shapes compressImage compressionOptions
                onProgress images r Hin) as [(_ & _ & Hstats & _)|(Hfailed & _)];
      [done | congruence]. }
  assert (Hlen : length report = length images).
  { unfold report. by rewrite batch_results, length_imap. }
  rewrite <- Hlen. clearbody report. unfold getSuccessCount, getTotalCompressedSize.
  clear Hlen.
  assert (Hfilter :
    filter (fun r => BatchResult.success r = true /\ is_Some (BatchResult.stats r))
           report
    = filter (fun r => BatchResult.success r = true) report).
  { induction Hshape as [|r report Hr _ IH]; [reflexivity|].
    rewrite !filter_cons, IH.
    destruct (decide (BatchResult.success r = true)) as [Hok|Hfailed].
    - by rewrite decide_True by auto.
    - by rewrite decide_False by tauto. }
  rewrite Hfilter. split; [reflexivity|]. clear Hfilter Hshape.
  induction report as [|r report (IH2 & IH3)].
  - repeat split; constructor.
  - rewrite !filter_cons, Forall_cons.
    destruct (BatchResult.success r) eqn:Hok.
    + rewrite decide_True by done. rewrite decide_False by discriminate.
      cbn [length]. split; [lia|].
      rewrite <- IH3. split; [intros; split; [done|lia] | intros [_ ?]; lia].
    + rewrite decide_False by discriminate.
      rewrite decide_True by done. cbn [length]. split; [lia|].
      split; [|intros [? _]; discriminate].
      intros Hall.
      pose proof (length_filter (fun r => BatchResult.success r = true) report). lia.
Qed.
End Totals.
